(** * Multi-base optimizer: base selection, fixed-point codec, register protocol

    A shallow embedding of the two core files of the repository,

      - [src/backend/optimizer_service/optimizer/multi_base_optimizer.py]
        (classes [MultiBaseCalculator] and [HFTOptimizer]), and
      - [src/fpga/python/pynq_optimizer_driver.py]
        (class [MultiBaseOptimizer]),

    together with the properties their specification states about them.

    Numbers.  Python [int] is [Z].  A Python [float] is the rational [Q] it
    denotes, and equality of floats is [Qeq].  Where a discrete result of the
    code depends on the binary64 rounding of an operation (the cents of a
    value, from which the base is chosen; the expected profit and the trade
    signal of the software fallback), the operation is the rounded one of
    module [Float].  Elsewhere the arithmetic is read over the rationals:
    the fixed-point codec is exact in binary64 over the range of its
    theorems, the digits of an integer below [2^53] add up exactly, and
    real-valued fields of results move by rounding only.
    Infinities and NaN are not values of the embedding: every float is a
    finite one.  Where a statement is about a call returning or failing and
    a float result has to be finite for it, the range is a hypothesis.

    Dictionaries returned by the code are finite maps from field names to
    Python values ([gmap string pyval]).  Exceptions are a [None] result of
    the partial function that raises them. *)

From Stdlib Require Import ZArith QArith Qabs Qround Qminmax Lia Lqa String Ascii List.
From stdpp Require Import gmap strings.

Local Open Scope Z_scope.

(** ** Python primitives *)

Module Py.

(** [int(x)] on a float: truncation toward zero. *)
Definition int (x : Q) : Z := Z.quot (Qnum x) (Z.pos (Qden x)).

(** [min(a, b)] of the builtin: [b] when [b < a], otherwise [a]. *)
Definition min (a b : Q) : Q := if Qlt_le_dec b a then b else a.

(** [max(a, b)] of the builtin: [b] when [b > a], otherwise [a]. *)
Definition max (a b : Q) : Q := if Qlt_le_dec a b then b else a.

(** [x < y], [x == y] on floats as booleans. *)
Definition ltb (x y : Q) : bool := if Qlt_le_dec x y then true else false.
Definition eqb (x y : Q) : bool := Qeq_bool x y.

(** [s[i]] on a string: indices [-len <= i < len], negative ones counted from
    the end; anything else raises [IndexError]. *)
Definition str_index (s : string) (i : Z) : option ascii :=
  let n := Z.of_nat (String.length s) in
  if (0 <=? i) && (i <? n) then String.get (Z.to_nat i) s
  else if (- n <=? i) && (i <? 0) then String.get (Z.to_nat (n + i)) s
  else None.

(** Values stored in the dictionaries the code returns. *)
Inductive pyval : Type :=
  | PyBool (b : bool)
  | PyInt (z : Z)
  | PyFloat (x : Q)
  | PyStr (s : string).

Inductive pytype : Type := TBool | TInt | TFloat | TStr.

Definition type_of (v : pyval) : pytype :=
  match v with
  | PyBool _ => TBool
  | PyInt _ => TInt
  | PyFloat _ => TFloat
  | PyStr _ => TStr
  end.

End Py.

Export Py.

(** ** Binary64 arithmetic *)

Module Float.

(** [2^k] for an integer [k] of either sign. *)
Definition pow2 (k : Z) : Q :=
  if 0 <=? k then inject_Z (2 ^ k) else 1 # Z.to_pos (2 ^ (- k)).

(** The exponent [e] with [2^e <= x < 2^(e+1)], for [x > 0]. *)
Definition binade (x : Q) : Z :=
  let e0 := Z.log2 (Qnum x) - Z.log2 (Z.pos (Qden x)) in
  if Qle_bool (pow2 e0) x then e0 else e0 - 1.

(** The integer nearest to [q >= 0], the even one of the two on a tie. *)
Definition nearest_even (q : Q) : Z :=
  let f := Qfloor q in
  match (q - inject_Z f ?= 1 # 2)%Q with
  | Lt => f
  | Gt => f + 1
  | Eq => if Z.even f then f else f + 1
  end.

(** Rounding of [x > 0] to 53 significant bits, to nearest, ties to even;
    below [2^-1022] the spacing stays [2^-1074] (subnormal numbers). *)
Definition round_pos (x : Q) : Q :=
  let ulp := pow2 (Z.max (binade x - 52) (-1074)) in
  (inject_Z (nearest_even (x / ulp)) * ulp)%Q.

(** The binary64 number that a real result [x] is rounded to.  A result of
    magnitude [2^1024] or more is an infinity in binary64 and is outside
    this function's domain. *)
Definition round (x : Q) : Q :=
  match Qnum x with
  | 0 => 0%Q
  | Z.pos _ => round_pos x
  | Z.neg _ => (- round_pos (- x))%Q
  end.

(** [x + y], [x - y], [x * y] and [x / y] on floats: the real result,
    rounded once. *)
Definition add (x y : Q) : Q := round (x + y).
Definition sub (x y : Q) : Q := round (x - y).
Definition mul (x y : Q) : Q := round (x * y).
Definition div (x y : Q) : Q := round (x / y).

(** The float an [int] operand of a float operation is converted to. *)
Definition of_int (n : Z) : Q := round (inject_Z n).

End Float.

(** ** [BaseSystem] *)

Inductive BaseSystem : Type := BINARY | DECIMAL | DOZENAL.

(** [base.value] *)
Definition BaseSystem_value (b : BaseSystem) : Z :=
  match b with BINARY => 2 | DECIMAL => 10 | DOZENAL => 12 end.

(** [base.name] *)
Definition BaseSystem_name (b : BaseSystem) : string :=
  match b with BINARY => "BINARY" | DECIMAL => "DECIMAL" | DOZENAL => "DOZENAL" end.

(** ** The driver's fixed-point codec ([pynq_optimizer_driver.py]) *)

Module Driver.

(** The two words [_write_price] hands to [_write_reg]:
    [fixed_price = int(price * (2**32))],
    [price_h = (fixed_price >> 32) & 0xFFFF], [price_l = fixed_price & 0xFFFFFFFF].
    Scaling a float by [2^32] is exact, so the product is the rational one as
    long as it is finite, that is for [|price| < 2^992]; from there on the
    float product is an infinity, for which [int] raises [OverflowError]:
    such prices are outside the domain of [fixed_price]. *)
Definition fixed_price (price : Q) : Z := Py.int (price * inject_Z (2 ^ 32)).

Definition price_h (price : Q) : Z := Z.land (Z.shiftr (fixed_price price) 32) 0xFFFF.
Definition price_l (price : Q) : Z := Z.land (fixed_price price) 0xFFFFFFFF.

Definition encode (price : Q) : Z * Z := (price_h price, price_l price).

(** The value [_read_price] builds from the two words it read:
    [fixed_price = ((price_h & 0xFFFF) << 32) | price_l], then
    [fixed_price / (2**32)]. *)
Definition combine (h l : Z) : Z := Z.lor (Z.shiftl (Z.land h 0xFFFF) 32) l.

Definition decode (hl : Z * Z) : Q := inject_Z (combine (fst hl) (snd hl)) / inject_Z (2 ^ 32).

(** *** Register map *)

Definition REG_CONTROL : Z := 0x000.
Definition REG_STATUS : Z := 0x004.
Definition REG_BID_PRICE_H : Z := 0x008.
Definition REG_BID_PRICE_L : Z := 0x00C.
Definition REG_ASK_PRICE_H : Z := 0x010.
Definition REG_ASK_PRICE_L : Z := 0x014.
Definition REG_LAST_PRICE_H : Z := 0x018.
Definition REG_LAST_PRICE_L : Z := 0x01C.
Definition REG_BID_SIZE : Z := 0x020.
Definition REG_ASK_SIZE : Z := 0x024.
Definition REG_BASE_SELECT : Z := 0x028.
Definition REG_RISK_LIMIT : Z := 0x02C.
Definition REG_LATENCY_BUDG : Z := 0x030.
Definition REG_STRATEGY_ID : Z := 0x034.
Definition REG_RESULT_PRICE_H : Z := 0x038.
Definition REG_RESULT_PRICE_L : Z := 0x03C.
Definition REG_EXIT_PRICE_H : Z := 0x040.
Definition REG_EXIT_PRICE_L : Z := 0x044.
Definition REG_QUANTITY : Z := 0x048.
Definition REG_EXPECTED_PROFIT : Z := 0x04C.
Definition REG_CONFIDENCE : Z := 0x050.
Definition REG_BASE_USED : Z := 0x054.
Definition REG_CYCLES_TAKEN : Z := 0x058.
Definition REG_BASE12_ADV : Z := 0x05C.
Definition REG_COMP_PER_SEC : Z := 0x060.

(** *** The outside world of one [optimize] call

    The peripheral and the wall clock are opaque to the driver.  They are
    given as the answers they will make: [device] holds the register image
    the peripheral shows to each successive [mmio.read], [clock] the value of
    each successive [time.time()].  [written] logs every [mmio.write]
    (offset, value), newest first.  A computation that asks for more answers
    than the world holds has no result ([None]). *)

Record world : Type := World {
  written : list (Z * Z);
  device : list (Z -> Z);
  clock : list Q
}.

(** A driver computation: from a world to a returned value and the world
    after it, or to [None] when nothing is returned: an exception is raised,
    or the world ran out of answers. *)
Definition M (A : Type) : Type := world -> option (A * world).

Definition ret {A} (a : A) : M A := fun w => Some (a, w).

Definition bind {A B} (m : M A) (k : A -> M B) : M B :=
  fun w => match m w with
           | Some (a, w') => k a w'
           | None => None
           end.

Notation "x <- m ;; k" := (bind m (fun x => k))
  (at level 100, m at next level, right associativity).
Notation "m ;; k" := (bind m (fun _ => k))
  (at level 100, right associativity).

Definition mmio_write (offset value : Z) : M unit :=
  fun w => Some (tt, World ((offset, value) :: written w) (device w) (clock w)).

Definition mmio_read (offset : Z) : M Z :=
  fun w => match device w with
           | image :: rest => Some (image offset, World (written w) rest (clock w))
           | [] => None
           end.

Definition time_time : M Q :=
  fun w => match clock w with
           | t :: rest => Some (t, World (written w) (device w) rest)
           | [] => None
           end.

(** The part of the driver object that the modelled methods read. *)
Record MultiBaseOptimizer : Type := { simulation_mode : bool }.

(** A driver bound to a peripheral, and one without. *)
Definition hardware : MultiBaseOptimizer := {| simulation_mode := false |}.
Definition simulated : MultiBaseOptimizer := {| simulation_mode := true |}.

Definition _write_reg (self : MultiBaseOptimizer) (offset value : Z) : M unit :=
  if simulation_mode self then ret tt
  else mmio_write offset (Z.land value 0xFFFFFFFF).

Definition _read_reg (self : MultiBaseOptimizer) (offset : Z) : M Z :=
  if simulation_mode self then ret 0
  else mmio_read offset.

Definition _write_price (self : MultiBaseOptimizer) (reg_h reg_l : Z) (price : Q) : M unit :=
  _write_reg self reg_h (price_h price) ;;
  _write_reg self reg_l (price_l price).

Definition _read_price (self : MultiBaseOptimizer) (reg_h reg_l : Z) : M Q :=
  h <- _read_reg self reg_h ;;
  l <- _read_reg self reg_l ;;
  ret (decode (h, l)).

(** [_simulate_optimization]: the software path ([time.sleep] has no effect
    on the model).  [expected_profit] is the [int] of a chain of float
    operations, so each of them is the rounded one; [0.1] is the float
    nearest to one tenth, [0.5] is exact. *)
Definition _simulate_optimization (bid ask last : Q) (bid_size ask_size : Z)
  : gmap string pyval :=
  let spread := Float.sub ask bid in
  let mid_price := Float.div (Float.add bid ask) 2 in
  let entry_price := Float.add mid_price (Float.mul spread (Float.round (1 # 10))) in
  let exit_price := Float.add entry_price (Float.mul spread (1 # 2)) in
  let quantity := Z.min bid_size ask_size / 2 in
  let expected_profit :=
    Py.int (Float.mul (Float.mul (Float.sub exit_price entry_price)
                                 (Float.of_int quantity))
                      1000) in
  list_to_map [
    ("success", PyBool true);
    ("entry_price", PyFloat entry_price);
    ("exit_price", PyFloat exit_price);
    ("quantity", PyInt quantity);
    ("expected_profit", PyInt expected_profit);
    ("confidence", PyFloat (855 # 10));
    ("base_used", PyStr "Dozenal");
    ("base_used_id", PyInt 2);
    ("cycles_taken", PyInt 125);
    ("base12_advantage_cycles", PyInt 15);
    ("computations_per_sec", PyInt 800000);
    ("latency_us", PyFloat (125 # 100));
    ("trade_signal", PyBool (0 <? expected_profit));
    ("spread", PyFloat spread);
    ("mid_price", PyFloat mid_price);
    ("mode", PyStr "simulation")
  ].

(** The [while ... else] of [optimize]: [Some status] when the loop left by
    [break], [None] when its condition failed and the [else] branch runs.
    Each turn takes one clock reading, so [fuel] above the number of readings
    left is never used up. *)
Fixpoint wait_completion (fuel : nat) (self : MultiBaseOptimizer)
    (start_time timeout_s : Q) : M (option Z) :=
  match fuel with
  | O => fun _ => None
  | S fuel' =>
      now <- time_time ;;
      if Py.ltb (now - start_time) timeout_s then
        status <- _read_reg self REG_STATUS ;;
        if Z.land status 0x01 =? 0
        then wait_completion fuel' self start_time timeout_s
        else ret (Some status)
      else ret None
  end.

Definition base_names (base_used : Z) : string :=
  if base_used =? 0 then "Binary"
  else if base_used =? 1 then "Decimal"
  else if base_used =? 2 then "Dozenal"
  else "Unknown".

Definition timeout_result : gmap string pyval :=
  list_to_map [("error", PyStr "Optimization timeout"); ("success", PyBool false)].

(** The writes of [optimize] before the start command, in program order. *)
Definition load_inputs (self : MultiBaseOptimizer)
    (bid_price ask_price last_price : Q) (bid_size ask_size : Z)
    (base_select risk_limit latency_budget_ns strategy_id : Z) : M unit :=
  _write_price self REG_BID_PRICE_H REG_BID_PRICE_L bid_price ;;
  _write_price self REG_ASK_PRICE_H REG_ASK_PRICE_L ask_price ;;
  _write_price self REG_LAST_PRICE_H REG_LAST_PRICE_L last_price ;;
  _write_reg self REG_BID_SIZE bid_size ;;
  _write_reg self REG_ASK_SIZE ask_size ;;
  _write_reg self REG_BASE_SELECT base_select ;;
  _write_reg self REG_RISK_LIMIT risk_limit ;;
  _write_reg self REG_LATENCY_BUDG latency_budget_ns ;;
  _write_reg self REG_STRATEGY_ID strategy_id.

(** The reads of [optimize] after the loop was left by [break], and the
    dictionary built from them. *)
Definition read_results (self : MultiBaseOptimizer)
    (start_time : Q) (status : Z) (bid_price ask_price : Q)
  : M (gmap string pyval) :=
  entry_price <- _read_price self REG_RESULT_PRICE_H REG_RESULT_PRICE_L ;;
  exit_price <- _read_price self REG_EXIT_PRICE_H REG_EXIT_PRICE_L ;;
  quantity <- _read_reg self REG_QUANTITY ;;
  expected_profit <- _read_reg self REG_EXPECTED_PROFIT ;;
  confidence_raw <- _read_reg self REG_CONFIDENCE ;;
  base_used <- _read_reg self REG_BASE_USED ;;
  cycles_taken <- _read_reg self REG_CYCLES_TAKEN ;;
  base12_advantage <- _read_reg self REG_BASE12_ADV ;;
  comp_per_sec <- _read_reg self REG_COMP_PER_SEC ;;
  now <- time_time ;;
  let confidence := (inject_Z confidence_raw / 100)%Q in
  let latency_us := ((now - start_time) * 1000000)%Q in
  let trade_signal_valid := negb (Z.land status 0x10000 =? 0) in
  ret (list_to_map [
    ("success", PyBool true);
    ("entry_price", PyFloat entry_price);
    ("exit_price", PyFloat exit_price);
    ("quantity", PyInt quantity);
    ("expected_profit", PyInt expected_profit);
    ("confidence", PyFloat confidence);
    ("base_used", PyStr (base_names base_used));
    ("base_used_id", PyInt base_used);
    ("cycles_taken", PyInt cycles_taken);
    ("base12_advantage_cycles", PyInt base12_advantage);
    ("computations_per_sec", PyInt comp_per_sec);
    ("latency_us", PyFloat latency_us);
    ("trade_signal", PyBool trade_signal_valid);
    ("spread", PyFloat (ask_price - bid_price));
    ("mid_price", PyFloat ((bid_price + ask_price) / 2))
  ]).

Definition optimize (self : MultiBaseOptimizer)
    (bid_price ask_price last_price : Q) (bid_size ask_size : Z)
    (base_select risk_limit latency_budget_ns strategy_id timeout_ms : Z)
  : M (gmap string pyval) :=
  start_time <- time_time ;;
  if simulation_mode self then
    ret (_simulate_optimization bid_price ask_price last_price bid_size ask_size)
  else
    load_inputs self bid_price ask_price last_price bid_size ask_size
      base_select risk_limit latency_budget_ns strategy_id ;;
    _write_reg self REG_CONTROL 0x03 ;;
    let timeout_s := (inject_Z timeout_ms / 1000)%Q in
    outcome <- (fun w => wait_completion (S (length (clock w))) self
                           start_time timeout_s w) ;;
    match outcome with
    | None => ret timeout_result
    | Some status => read_results self start_time status bid_price ask_price
    end.

(** [reset]: clear the control register, then set the enable bit again. *)
Definition reset (self : MultiBaseOptimizer) : M unit :=
  _write_reg self REG_CONTROL 0x00 ;;
  _write_reg self REG_CONTROL 0x02.

(** [get_status] *)
Definition get_status (self : MultiBaseOptimizer) : M (gmap string pyval) :=
  if simulation_mode self then
    ret (list_to_map [("mode", PyStr "simulation"); ("ready", PyBool true)])
  else
    status <- _read_reg self REG_STATUS ;;
    comp_per_sec <- _read_reg self REG_COMP_PER_SEC ;;
    ret (list_to_map [
      ("mode", PyStr "fpga");
      ("ready", PyBool (negb (Z.land status 0x01 =? 0)));
      ("optimization_complete", PyBool (negb (Z.land status 0x01 =? 0)));
      ("trade_signal_valid", PyBool (negb (Z.land status 0x10000 =? 0)));
      ("optimizer_busy", PyBool (negb (Z.land status 0x20000 =? 0)));
      ("computations_per_sec", PyInt comp_per_sec)
    ]).

End Driver.


(** ** [MultiBaseCalculator] ([multi_base_optimizer.py]) *)

Module Calc.

Definition DOZENAL_DIGITS : string := "0123456789AB".

(** The [while value > 0] loop of [_int_to_dozenal]; [result] is the list
    being appended to.  [None] stands for an [IndexError], or for [fuel] used
    up (which [_int_to_dozenal] below excludes). *)
Fixpoint int_digits (fuel : nat) (value : Z) (result : list ascii) : option (list ascii) :=
  if 0 <? value then
    match fuel with
    | O => None
    | S fuel' =>
        let remainder := value mod 12 in
        match Py.str_index DOZENAL_DIGITS remainder with
        | Some c => int_digits fuel' (value / 12) (result ++ [c])
        | None => None
        end
    end
  else Some result.

Definition _int_to_dozenal (value : Z) : option string :=
  if value =? 0 then Some "0"%string
  else
    let negative := value <? 0 in
    let value := Z.abs value in
    match int_digits (S (Z.to_nat (Z.log2 value))) value [] with
    | Some result =>
        let result := if negative then result ++ ["-"%char] else result in
        Some (string_of_list_ascii (rev result))
    | None => None
    end.

(** The [for _ in range(max_digits)] loop of [_frac_to_dozenal]. *)
Fixpoint frac_digits (n : nat) (value : Q) (result : list ascii) : option (list ascii) :=
  match n with
  | O => Some result
  | S n' =>
      let value := (value * 12)%Q in
      let digit := Py.int value in
      match Py.str_index DOZENAL_DIGITS digit with
      | Some c =>
          let result := result ++ [c] in
          let value := (value - inject_Z digit)%Q in
          if Py.ltb value (1 # 10000000000) then Some result
          else frac_digits n' value result
      | None => None
      end
  end.

Definition _frac_to_dozenal (value : Q) (max_digits : Z) : option string :=
  if Py.eqb value 0 then Some ""%string
  else
    match frac_digits (Z.to_nat max_digits) value [] with
    | Some result => Some (string_of_list_ascii result)
    | None => None
    end.

Definition to_dozenal (decimal_value : Q) : option string :=
  if Py.eqb decimal_value 0 then Some "0"%string
  else
    let integer_part := Py.int decimal_value in
    let fractional_part := (decimal_value - inject_Z integer_part)%Q in
    match _int_to_dozenal integer_part with
    | Some dozenal_int =>
        match _frac_to_dozenal fractional_part 8 with
        | Some dozenal_frac =>
            if String.eqb dozenal_frac "" then Some dozenal_int
            else Some (dozenal_int ++ "." ++ dozenal_frac)%string
        | None => None
        end
    | None => None
    end.

(** [s.split('.')] for a one-character separator: always at least one part. *)
Fixpoint split (sep : ascii) (s : string) : list string :=
  match s with
  | EmptyString => [EmptyString]
  | String c s' =>
      if Ascii.eqb c sep then EmptyString :: split sep s'
      else match split sep s' with
           | part :: parts => String c part :: parts
           | [] => [String c EmptyString]
           end
  end.

(** [c.upper()] on one ASCII character. *)
Definition upper (c : ascii) : ascii :=
  let n := nat_of_ascii c in
  if ((97 <=? n) && (n <=? 122))%nat then ascii_of_nat (n - 32) else c.

(** [s.index(c)] for a one-character [c]: position of the first occurrence,
    [None] for the [ValueError] when there is none. *)
Fixpoint index (c : ascii) (s : string) : option Z :=
  match s with
  | EmptyString => None
  | String d s' =>
      if Ascii.eqb c d then Some 0
      else match index c s' with
           | Some i => Some (i + 1)
           | None => None
           end
  end.

(** [for i, digit in enumerate(digits): result += weight(i) * index(digit)],
    starting at position [i].  The sum is taken over the rationals; it is the
    float sum of the source wherever every term and every partial sum is a
    float, as for the digits of an integer below [2^53]. *)
Fixpoint accumulate (weight : nat -> Q) (i : nat) (digits : list ascii) (result : Q)
  : option Q :=
  match digits with
  | [] => Some result
  | digit :: rest =>
      match index (upper digit) DOZENAL_DIGITS with
      | Some digit_value =>
          accumulate weight (S i) rest (result + inject_Z digit_value * weight i)%Q
      | None => None
      end
  end.

(** [12 ** i] and [12 ** -(i + 1)]. *)
Definition pow12 (i : nat) : Q := inject_Z (12 ^ Z.of_nat i).
Definition pow12_neg (i : nat) : Q := (1 / inject_Z (12 ^ Z.of_nat (S i)))%Q.

Definition from_dozenal (dozenal_str : string) : option Q :=
  let negative := String.prefix "-" dozenal_str in
  let dozenal_str :=
    if negative then String.substring 1 (String.length dozenal_str - 1) dozenal_str
    else dozenal_str in
  let parts := split "."%char dozenal_str in
  let integer_str := nth 0 parts ""%string in
  let fractional_str := if (1 <? length parts)%nat then nth 1 parts ""%string else ""%string in
  match accumulate pow12 0 (rev (list_ascii_of_string integer_str)) 0 with
  | Some result =>
      match accumulate pow12_neg 0 (list_ascii_of_string fractional_str) result with
      | Some result => Some (if negative then - result else result)%Q
      | None => None
      end
  | None => None
  end.

(** [cents = int(abs(value) * 100)], the product being the float one. *)
Definition cents_of (value : Q) : Z := Py.int (Float.mul (Qabs value) 100).

Definition optimal_base_for_value (value : Q) : BaseSystem :=
  let cents := cents_of value in
  if cents =? 0 then DECIMAL
  else if (0 <? cents) && (Z.land cents (cents - 1) =? 0) then BINARY
  else if (cents mod 12 =? 0) || (cents mod 6 =? 0) || (cents mod 4 =? 0) then DOZENAL
  else if cents mod 10 =? 0 then DECIMAL
  else
    let base12_score :=
      Z.b2z (cents mod 2 =? 0) + Z.b2z (cents mod 3 =? 0)
      + Z.b2z (cents mod 4 =? 0) + Z.b2z (cents mod 6 =? 0) in
    if 2 <=? base12_score then DOZENAL else DECIMAL.

End Calc.

(** ** [HFTOptimizer] ([multi_base_optimizer.py]) *)

Module HFT.

(** [self.performance_stats]: a dictionary whose four keys are fixed by
    [__init__] and never added to or removed. *)
Record stats : Type := Stats {
  base12_operations : Z;
  base10_operations : Z;
  base2_operations : Z;
  total_savings_cycles : Z
}.

Record HFTOptimizer : Type := {
  fpga_accelerated : bool;
  performance_stats : stats
}.

(** [HFTOptimizer(fpga_accelerated)] *)
Definition init (accelerated : bool) : HFTOptimizer :=
  {| fpga_accelerated := accelerated; performance_stats := Stats 0 0 0 0 |}.

Definition set_stats (self : HFTOptimizer) (s : stats) : HFTOptimizer :=
  {| fpga_accelerated := fpga_accelerated self; performance_stats := s |}.

(** The dictionary object [self.performance_stats] as a caller sees it. *)
Definition stats_dict (s : stats) : gmap string pyval :=
  list_to_map [
    ("base12_operations", PyInt (base12_operations s));
    ("base10_operations", PyInt (base10_operations s));
    ("base2_operations", PyInt (base2_operations s));
    ("total_savings_cycles", PyInt (total_savings_cycles s))
  ].

Definition _optimize_dozenal (bid ask last spread : Q) (strategy : string)
  : option (gmap string pyval) :=
  let mid_price := ((bid + ask) / 2)%Q in
  match Calc.to_dozenal mid_price with
  | Some mid_dozenal =>
      match Calc.to_dozenal spread with
      | Some spread_dozenal =>
          let '(entry_offset, exit_offset) :=
            if String.eqb strategy "market_making"
            then (spread / 12, spread * 11 / 12)%Q
            else if String.eqb strategy "mean_reversion"
            then (spread / 4, spread / 2)%Q
            else (spread / 6, spread / 3)%Q in
          let entry_price := (mid_price + entry_offset)%Q in
          let exit_price := (mid_price + exit_offset)%Q in
          let cycles_saved := 15 in
          Some (list_to_map [
            ("entry_price", PyFloat entry_price);
            ("exit_price", PyFloat exit_price);
            ("entry_offset", PyFloat entry_offset);
            ("exit_offset", PyFloat exit_offset);
            ("cycles_saved", PyInt cycles_saved);
            ("dozenal_mid", PyStr mid_dozenal);
            ("dozenal_spread", PyStr spread_dozenal)
          ])
      | None => None
      end
  | None => None
  end.

Definition _optimize_binary (bid ask last spread : Q) (strategy : string)
  : gmap string pyval :=
  let mid_price := ((bid + ask) / 2)%Q in
  let '(entry_offset, exit_offset) :=
    if String.eqb strategy "market_making"
    then (spread / 8, spread * 7 / 8)%Q
    else if String.eqb strategy "momentum"
    then (spread / 16, spread / 4)%Q
    else (spread / 4, spread / 2)%Q in
  let entry_price := (mid_price + entry_offset)%Q in
  let exit_price := (mid_price + exit_offset)%Q in
  let cycles_saved := 20 in
  list_to_map [
    ("entry_price", PyFloat entry_price);
    ("exit_price", PyFloat exit_price);
    ("entry_offset", PyFloat entry_offset);
    ("exit_offset", PyFloat exit_offset);
    ("cycles_saved", PyInt cycles_saved)
  ].

Definition _optimize_decimal (bid ask last spread : Q) (strategy : string)
  : gmap string pyval :=
  let mid_price := ((bid + ask) / 2)%Q in
  let '(entry_offset, exit_offset) :=
    if String.eqb strategy "market_making"
    then (spread * (1 # 10), spread * (9 # 10))%Q
    else if String.eqb strategy "arbitrage"
    then (spread * (5 # 100), spread * (95 # 100))%Q
    else (spread * (2 # 10), spread * (8 # 10))%Q in
  let entry_price := (mid_price + entry_offset)%Q in
  let exit_price := (mid_price + exit_offset)%Q in
  let cycles_saved := 0 in
  list_to_map [
    ("entry_price", PyFloat entry_price);
    ("exit_price", PyFloat exit_price);
    ("entry_offset", PyFloat entry_offset);
    ("exit_offset", PyFloat exit_offset);
    ("cycles_saved", PyInt cycles_saved)
  ].

(** [optimize_price_levels]: the returned dictionary and the object after the
    call. *)
Definition optimize_price_levels (self : HFTOptimizer) (bid ask last : Q) (strategy : string)
  : option (gmap string pyval * HFTOptimizer) :=
  let mid_price := ((bid + ask) / 2)%Q in
  let spread := (ask - bid)%Q in
  let base := Calc.optimal_base_for_value mid_price in
  let st := performance_stats self in
  let step :=
    match base with
    | DOZENAL =>
        match _optimize_dozenal bid ask last spread strategy with
        | Some result =>
            Some (result,
                  Stats (base12_operations st + 1) (base10_operations st)
                        (base2_operations st) (total_savings_cycles st))
        | None => None
        end
    | BINARY =>
        Some (_optimize_binary bid ask last spread strategy,
              Stats (base12_operations st) (base10_operations st)
                    (base2_operations st + 1) (total_savings_cycles st))
    | DECIMAL =>
        Some (_optimize_decimal bid ask last spread strategy,
              Stats (base12_operations st) (base10_operations st + 1)
                    (base2_operations st) (total_savings_cycles st))
    end in
  match step with
  | Some (result, st') =>
      let result := <["base_used" := PyStr (BaseSystem_name base)]> result in
      let result := <["mid_price" := PyFloat mid_price]> result in
      let result := <["spread" := PyFloat spread]> result in
      Some (result, set_stats self st')
  | None => None
  end.

Section Slippage.

(** [x ** y] on floats for a base [x >= 0].  Its values at [y = 1.5] are
    irrational in general, so the function is a parameter: whatever float the
    platform returns.  A ratio or a power too large for a float raises
    [OverflowError]; that is outside the function, which is total. *)
Variable float_pow : Q -> Q -> Q.

(** For a negative [depth_ratio], [depth_ratio ** 1.5] is a complex number,
    and [min] of a complex and a float raises [TypeError]: [None]. *)
Definition estimate_slippage (quantity : Z) (spread : Q) (market_depth : Z) : option Q :=
  if market_depth =? 0 then Some (spread * (1 # 2))%Q
  else
    let depth_ratio := (inject_Z quantity / inject_Z market_depth)%Q in
    let base_slippage := (spread * (1 # 4))%Q in
    if Py.ltb depth_ratio 0 then None
    else
      let slippage := (base_slippage * (1 + float_pow depth_ratio (3 # 2)))%Q in
      Some (Py.min slippage spread).

End Slippage.

(** [a / b] on integers: the quotient as a float, [None] for
    [ZeroDivisionError]. *)
Definition truediv (a b : Z) : option Q :=
  if b =? 0 then None else Some (inject_Z a / inject_Z b)%Q.

Definition get_performance_stats (self : HFTOptimizer) : option (gmap string pyval) :=
  let st := performance_stats self in
  let total_ops := base12_operations st + base10_operations st + base2_operations st in
  if total_ops =? 0 then Some (stats_dict st)
  else
    match truediv (100 * base12_operations st) total_ops,
          truediv (100 * base10_operations st) total_ops,
          truediv (100 * base2_operations st) total_ops with
    | Some p12, Some p10, Some p2 =>
        Some (<["base2_percentage" := PyFloat p2]>
              (<["base10_percentage" := PyFloat p10]>
               (<["base12_percentage" := PyFloat p12]>
                (<["total_operations" := PyInt total_ops]> (stats_dict st)))))
    | _, _, _ => None
    end.

(** States of the object reachable through its methods from a fresh one. *)
Inductive reachable : HFTOptimizer -> Prop :=
  | reach_init accelerated : reachable (init accelerated)
  | reach_optimize self bid ask last strategy result self' :
      reachable self ->
      optimize_price_levels self bid ask last strategy = Some (result, self') ->
      reachable self'.

(** A caller's sequence of [optimize_price_levels] calls on one object, each
    given as (bid, ask, last, strategy): the dictionaries returned, in call
    order, and the object after the last call. *)
Fixpoint run (calls : list (Q * Q * Q * string)) (self : HFTOptimizer)
  : option (list (gmap string pyval) * HFTOptimizer) :=
  match calls with
  | [] => Some ([], self)
  | (bid, ask, last, strategy) :: rest =>
      match optimize_price_levels self bid ask last strategy with
      | Some (result, self') =>
          match run rest self' with
          | Some (results, self'') => Some (result :: results, self'')
          | None => None
          end
      | None => None
      end
  end.

End HFT.

(** ** The specification's wording of the rules, for comparison *)

Module Spec.

(** Section 4.3: the base chosen for [cents], first match wins. *)
Definition base_of_cents (cents : Z) : BaseSystem :=
  if cents =? 0 then DECIMAL
  else if Z.land cents (cents - 1) =? 0 then BINARY
  else if (cents mod 12 =? 0) || (cents mod 6 =? 0) || (cents mod 4 =? 0) then DOZENAL
  else if cents mod 10 =? 0 then DECIMAL
  else if 2 <=? Z.of_nat (length (List.filter (fun d => cents mod d =? 0) [2; 3; 4; 6]))
       then DOZENAL else DECIMAL.

Definition optimal_base (value : Q) : BaseSystem :=
  base_of_cents (Qfloor (Float.mul (Qabs value) 100)).


Definition cycles_saved (base : BaseSystem) : Z :=
  match base with DOZENAL => 15 | BINARY => 20 | DECIMAL => 0 end.

(** Section 4.6, [Idle -> InputsLoaded -> Running]: the register writes of
    one transaction, newest first: the start command on top of the encoded
    prices and the plain 32-bit inputs. *)
Definition transaction_writes
    (bid_price ask_price last_price : Q) (bid_size ask_size : Z)
    (base_select risk_limit latency_budget_ns strategy_id : Z) : list (Z * Z) :=
  let word v := Z.land v 0xFFFFFFFF in
  [ (Driver.REG_CONTROL, 0x03);
    (Driver.REG_STRATEGY_ID, word strategy_id);
    (Driver.REG_LATENCY_BUDG, word latency_budget_ns);
    (Driver.REG_RISK_LIMIT, word risk_limit);
    (Driver.REG_BASE_SELECT, word base_select);
    (Driver.REG_ASK_SIZE, word ask_size);
    (Driver.REG_BID_SIZE, word bid_size);
    (Driver.REG_LAST_PRICE_L, Driver.price_l last_price);
    (Driver.REG_LAST_PRICE_H, Driver.price_h last_price);
    (Driver.REG_ASK_PRICE_L, Driver.price_l ask_price);
    (Driver.REG_ASK_PRICE_H, Driver.price_h ask_price);
    (Driver.REG_BID_PRICE_L, Driver.price_l bid_price);
    (Driver.REG_BID_PRICE_H, Driver.price_h bid_price) ].

(** Section 4.6, [Running]: one poll (a clock reading and the register image
    shown to the status read) that finds the budget open and the completion
    bit clear. *)
Definition pending (start_time timeout_s : Q) (poll : Q * (Z -> Z)) : Prop :=
  (fst poll - start_time < timeout_s)%Q
  /\ Z.land (snd poll Driver.REG_STATUS) 0x01 = 0.

(** The result fields of a completed transaction (section 4.6). *)
Definition result_fields : list string :=
  [ "entry_price"; "exit_price"; "quantity"; "expected_profit"; "confidence";
    "base_used"; "base_used_id"; "cycles_taken"; "base12_advantage_cycles";
    "computations_per_sec"; "latency_us"; "trade_signal"; "spread";
    "mid_price" ]%string.

End Spec.

(** * Properties *)

(** ** Truncation toward zero *)

Lemma int_nonneg_floor (x : Q) : (0 <= x)%Q -> Py.int x = Qfloor x.
Proof.
  destruct x as [n d]. unfold Qle, Py.int, Qfloor. simpl. intros Hn.
  apply Z.quot_div_nonneg; lia.
Qed.

Lemma int_neg_ceiling (x : Q) : (x <= 0)%Q -> Py.int x = Qceiling x.
Proof.
  destruct x as [n d]. unfold Qle, Py.int, Qceiling, Qfloor. simpl. intros Hn.
  rewrite <- (Z.opp_involutive n) at 1.
  rewrite Z.quot_opp_l by lia.
  rewrite Z.quot_div_nonneg by lia. reflexivity.
Qed.

Lemma int_inject_Z (z : Z) : Py.int (inject_Z z) = z.
Proof. unfold Py.int. simpl. apply Z.quot_1_r. Qed.

(** [int(x)] lies between 0 and [x], less than 1 away from [x]. *)
Lemma int_bounds_nonneg (x : Q) :
  (0 <= x)%Q -> (0 <= inject_Z (Py.int x) <= x /\ x < inject_Z (Py.int x) + 1)%Q.
Proof.
  intros Hx. rewrite (int_nonneg_floor x Hx).
  pose proof (Qfloor_le x) as Hle. pose proof (Qlt_floor x) as Hlt.
  rewrite inject_Z_plus in Hlt.
  assert (0 <= Qfloor x) as H0.
  { change 0 with (Qfloor 0). apply Qfloor_resp_le, Hx. }
  repeat split; try assumption.
  change 0%Q with (inject_Z 0). rewrite <- Zle_Qle. exact H0.
Qed.

Lemma int_bounds_neg (x : Q) :
  (x <= 0)%Q -> (x <= inject_Z (Py.int x) <= 0 /\ inject_Z (Py.int x) - 1 < x)%Q.
Proof.
  intros Hx. rewrite (int_neg_ceiling x Hx).
  pose proof (Qle_ceiling x) as Hle. pose proof (Qceiling_lt x) as Hlt.
  assert (Qceiling x <= 0) as H0.
  { change 0 with (Qceiling 0). apply Qceiling_resp_le, Hx. }
  repeat split; try assumption.
  - change 0%Q with (inject_Z 0). rewrite <- Zle_Qle. exact H0.
  - unfold Qminus. change (- (1))%Q with (inject_Z (-1)).
    rewrite <- inject_Z_plus. exact Hlt.
Qed.

(** ** Fixed-point codec *)

Lemma lor_shiftl_low (a l : Z) :
  0 <= l < 2 ^ 32 -> Z.lor (Z.shiftl a 32) l = a * 2 ^ 32 + l.
Proof.
  intros Hl.
  assert (Z.land (Z.shiftl a 32) l = 0) as Hdisj.
  { apply Z.bits_inj'. intros n Hn. rewrite Z.land_spec, Z.bits_0.
    destruct (Z.lt_ge_cases n 32) as [Hlt | Hge].
    - rewrite Z.shiftl_spec_low by assumption. reflexivity.
    - assert (Z.testbit l n = false) as ->; [| apply andb_false_r].
      destruct (Z.eq_dec l 0) as [-> | Hne]; [apply Z.bits_0 |].
      apply Z.bits_above_log2; [lia |].
      apply Z.lt_le_trans with 32; [| assumption].
      apply Z.log2_lt_pow2; lia. }
  rewrite <- Z.lxor_lor by assumption.
  rewrite <- Z.add_nocarry_lxor by assumption.
  rewrite Z.shiftl_mul_pow2 by lia. reflexivity.
Qed.

(** The 48 bits that travel: the two words put together again are the scaled
    integer modulo [2^48], whatever the price. *)
Lemma combine_encode (price : Q) :
  Driver.combine (Driver.price_h price) (Driver.price_l price)
  = Driver.fixed_price price mod 2 ^ 48.
Proof.
  unfold Driver.combine, Driver.price_h, Driver.price_l.
  set (f := Driver.fixed_price price).
  change 0xFFFF with (Z.ones 16). change 0xFFFFFFFF with (Z.ones 32).
  rewrite !Z.land_ones by lia. rewrite Z.shiftr_div_pow2 by lia.
  rewrite Z.mod_mod by lia.
  rewrite lor_shiftl_low by (apply Z.mod_pos_bound; lia).
  change (2 ^ 48) with (2 ^ 32 * 2 ^ 16).
  rewrite Z.rem_mul_r by lia. lia.
Qed.

Lemma encode_words_range (price : Q) :
  0 <= Driver.price_h price < 2 ^ 16 /\ 0 <= Driver.price_l price < 2 ^ 32.
Proof.
  unfold Driver.price_h, Driver.price_l.
  change 0xFFFF with (Z.ones 16). change 0xFFFFFFFF with (Z.ones 32).
  rewrite !Z.land_ones by lia.
  split; apply Z.mod_pos_bound; lia.
Qed.

Lemma decode_encode_eq (price : Q) :
  (Driver.decode (Driver.encode price)
   == inject_Z (Driver.fixed_price price mod 2 ^ 48) / inject_Z (2 ^ 32))%Q.
Proof.
  unfold Driver.decode, Driver.encode. simpl fst. simpl snd.
  rewrite combine_encode. reflexivity.
Qed.

Lemma scale_pos : (0 < inject_Z (2 ^ 32))%Q.
Proof. reflexivity. Qed.

Lemma fixed_price_range (price : Q) :
  (0 <= price)%Q -> (price < inject_Z (2 ^ 16))%Q ->
  0 <= Driver.fixed_price price < 2 ^ 48.
Proof.
  intros H0 H1. unfold Driver.fixed_price.
  assert (0 <= price * inject_Z (2 ^ 32))%Q as Hs.
  { apply Qmult_le_0_compat; [assumption | discriminate]. }
  destruct (int_bounds_nonneg _ Hs) as [[Hlo Hhi] _].
  split.
  - rewrite Zle_Qle. exact Hlo.
  - rewrite Zlt_Qlt. eapply Qle_lt_trans; [exact Hhi |].
    change (inject_Z (2 ^ 48)) with (inject_Z (2 ^ 16) * inject_Z (2 ^ 32))%Q.
    apply Qmult_lt_compat_r; [reflexivity | assumption].
Qed.

(** In range and non-negative, the decoded value is the price truncated to a
    multiple of [2^-32]. *)
Lemma decode_encode_nonneg (price : Q) :
  (0 <= price)%Q -> (price < inject_Z (2 ^ 16))%Q ->
  (Driver.decode (Driver.encode price)
   == inject_Z (Driver.fixed_price price) / inject_Z (2 ^ 32))%Q.
Proof.
  intros H0 H1. rewrite decode_encode_eq.
  rewrite Z.mod_small by (apply fixed_price_range; assumption). reflexivity.
Qed.

(** A negative price in range comes back shifted up by [2^16]: the decoder
    never extends the sign of the 48-bit word. *)
Lemma decode_encode_neg (price : Q) :
  (- inject_Z (2 ^ 16) < price)%Q -> (price <= - (1 # 2 ^ 32))%Q ->
  (Driver.decode (Driver.encode price)
   == inject_Z (Driver.fixed_price price) / inject_Z (2 ^ 32) + inject_Z (2 ^ 16))%Q.
Proof.
  intros H0 H1. rewrite decode_encode_eq.
  assert (- 2 ^ 48 < Driver.fixed_price price < 0) as Hr.
  { unfold Driver.fixed_price.
    assert (price * inject_Z (2 ^ 32) <= 0)%Q as Hs.
    { change (inject_Z (2 ^ 32)) with (4294967296 # 1)%Q.
      change (inject_Z (2 ^ 16)) with (65536 # 1)%Q in H0.
      change (1 # 2 ^ 32)%Q with (1 # 4294967296)%Q in H1. lra. }
    destruct (int_bounds_neg _ Hs) as [[Hlo Hhi] Hlt].
    split.
    - rewrite Zlt_Qlt. eapply Qlt_le_trans; [| exact Hlo].
      change (inject_Z (- 2 ^ 48)) with (- (281474976710656 # 1))%Q.
      change (inject_Z (2 ^ 32)) with (4294967296 # 1)%Q.
      change (inject_Z (2 ^ 16)) with (65536 # 1)%Q in H0. lra.
    - assert (Py.int (price * inject_Z (2 ^ 32)) <= -1); [| lia].
      rewrite (int_neg_ceiling _ Hs).
      change (-1) with (Qceiling (- (1))).
      apply Qceiling_resp_le.
      change (inject_Z (2 ^ 32)) with (4294967296 # 1)%Q.
      change (1 # 2 ^ 32)%Q with (1 # 4294967296)%Q in H1. lra. }
  replace (Driver.fixed_price price mod 2 ^ 48)
    with (Driver.fixed_price price + 2 ^ 16 * 2 ^ 32).
  - rewrite inject_Z_plus, inject_Z_mult.
    change (inject_Z (2 ^ 32)) with (4294967296 # 1)%Q.
    change (inject_Z (2 ^ 16)) with (65536 # 1)%Q. field.
  - apply Z.mod_unique with (-1); lia.
Qed.

(** C1, as amended: for every price with [0 <= price < 2^16], decoding the
    encoded price gives the price back to within [2^-32]; the 48-bit word is
    read back unsigned, so this is the range of the round trip. *)
Theorem decode_encode_roundtrip (price : Q) :
  (0 <= price)%Q -> (price < inject_Z (2 ^ 16))%Q ->
  (Qabs (Driver.decode (Driver.encode price) - price) < 1 / inject_Z (2 ^ 32))%Q.
Proof.
  intros H0 H1. rewrite (decode_encode_nonneg price H0 H1).
  unfold Driver.fixed_price.
  assert (0 <= price * inject_Z (2 ^ 32))%Q as Hs.
  { apply Qmult_le_0_compat; [assumption | discriminate]. }
  destruct (int_bounds_nonneg _ Hs) as [[_ Hle] Hlt].
  set (f := inject_Z (Py.int (price * inject_Z (2 ^ 32)))) in *.
  change (inject_Z (2 ^ 32)) with (4294967296 # 1)%Q in *.
  apply Qabs_Qlt_condition.
  assert (f / (4294967296 # 1) * (4294967296 # 1) == f)%Q as Hd by (field; discriminate).
  change (1 / (4294967296 # 1))%Q with (1 # 4294967296)%Q.
  revert Hd. generalize (f / (4294967296 # 1))%Q. intros d Hd.
  split; lra.
Qed.

Lemma decode_encode_roundtrip_witness :
  (0 <= 3 # 2)%Q /\ (3 # 2 < inject_Z (2 ^ 16))%Q /\
  (Qabs (Driver.decode (Driver.encode (3 # 2)) - (3 # 2)) < 1 / inject_Z (2 ^ 32))%Q.
Proof.
  split; [discriminate | split; [reflexivity |]].
  apply decode_encode_roundtrip; [discriminate | reflexivity].
Defined.

(** C1 as stated fails on a negative price: [-1] is encoded as
    [(0xFFFF, 0)], which decodes to [65535]. *)
Lemma decode_encode_negative_counterexample :
  (Qabs (-1) < inject_Z (2 ^ 16))%Q /\
  ~ (Qabs (Driver.decode (Driver.encode (-1)) - (-1)) <= 1 / inject_Z (2 ^ 32))%Q.
Proof. split; [reflexivity | intros H; vm_compute in H; apply H; reflexivity]. Qed.

(** C2, as amended: encoding has no range check and no [RangeError].  For
    every price whose scaled product is a finite float, [|price| < 2^992],
    in range or not, the driver writes a 16-bit high word and a 32-bit low
    word holding the scaled integer modulo [2^48]: a price with
    [|price| >= 2^16] is wrapped, not refused, and a price in range does not
    fail. *)
Theorem write_price_wraps (reg_h reg_l : Z) (price : Q) (w : Driver.world) :
  (Qabs price < inject_Z (2 ^ 992))%Q ->
  Driver._write_price Driver.hardware reg_h reg_l price w
  = Some (tt, Driver.World
                ((reg_l, Driver.price_l price) :: (reg_h, Driver.price_h price)
                   :: Driver.written w)
                (Driver.device w) (Driver.clock w))
  /\ 0 <= Driver.price_h price < 2 ^ 16
  /\ 0 <= Driver.price_l price < 2 ^ 32
  /\ Driver.price_h price * 2 ^ 32 + Driver.price_l price
     = Driver.fixed_price price mod 2 ^ 48.
Proof.
  intros _.
  destruct (encode_words_range price) as [Hh Hl].
  split; [| split; [exact Hh | split; [exact Hl |]]].
  - unfold Driver._write_price, Driver._write_reg, Driver.bind, Driver.mmio_write.
    simpl.
    change 0xFFFFFFFF with (Z.ones 32). rewrite !Z.land_ones by lia.
    rewrite !Z.mod_small by lia. reflexivity.
  - rewrite <- combine_encode. unfold Driver.combine.
    change 0xFFFF with (Z.ones 16). rewrite Z.land_ones by lia.
    rewrite Z.mod_small by lia.
    symmetry. apply lor_shiftl_low. exact Hl.
Qed.

Lemma write_price_wraps_witness :
  (Qabs 65536 < inject_Z (2 ^ 992))%Q
  /\ Driver._write_price Driver.hardware Driver.REG_BID_PRICE_H Driver.REG_BID_PRICE_L
       65536 (Driver.World [] [] [])
     = Some (tt, Driver.World
                   [(Driver.REG_BID_PRICE_L, Driver.price_l 65536);
                    (Driver.REG_BID_PRICE_H, Driver.price_h 65536)] [] [])
  /\ Driver.price_h 65536 * 2 ^ 32 + Driver.price_l 65536
     = Driver.fixed_price 65536 mod 2 ^ 48.
Proof.
  split; [reflexivity |].
  destruct (write_price_wraps Driver.REG_BID_PRICE_H Driver.REG_BID_PRICE_L 65536
              (Driver.World [] [] [])) as (Hrun & _ & _ & Hwrap); [reflexivity |].
  split; [exact Hrun | exact Hwrap].
Defined.

(** C2 as stated fails at [price = 65536]: the call returns normally, and
    what it wrote is what it writes for [price = 0]. *)
Lemma write_price_overflow_counterexample :
  (inject_Z (2 ^ 16) <= Qabs 65536)%Q /\
  Driver._write_price Driver.hardware Driver.REG_BID_PRICE_H Driver.REG_BID_PRICE_L
    65536 (Driver.World [] [] [])
  <> None /\
  Driver._write_price Driver.hardware Driver.REG_BID_PRICE_H Driver.REG_BID_PRICE_L
    65536 (Driver.World [] [] [])
  = Driver._write_price Driver.hardware Driver.REG_BID_PRICE_H Driver.REG_BID_PRICE_L
    0 (Driver.World [] [] []).
Proof. split; [discriminate | split; [discriminate | reflexivity]]. Qed.

(** ** Base selection *)

Lemma pow2_pos (k : Z) : (0 < Float.pow2 k)%Q.
Proof.
  unfold Float.pow2. destruct (0 <=? k) eqn:Ek; [| reflexivity].
  apply Z.leb_le in Ek. change 0%Q with (inject_Z 0). rewrite <- Zlt_Qlt.
  apply Z.pow_pos_nonneg; lia.
Qed.

Lemma nearest_even_nonneg (q : Q) : (0 <= q)%Q -> 0 <= Float.nearest_even q.
Proof.
  intros Hq. unfold Float.nearest_even.
  assert (0 <= Qfloor q) as Hf.
  { change 0 with (Qfloor 0). apply Qfloor_resp_le. exact Hq. }
  destruct (q - inject_Z (Qfloor q) ?= 1 # 2)%Q; [destruct (Z.even _) | |]; lia.
Qed.

(** Rounding keeps a result that is not negative from becoming negative. *)
Lemma round_nonneg (x : Q) : (0 <= x)%Q -> (0 <= Float.round x)%Q.
Proof.
  intros Hx. unfold Float.round. destruct x as [[| n | n] d].
  - discriminate.
  - unfold Float.round_pos.
    set (ulp := Float.pow2 _). pose proof (pow2_pos (Z.max (Float.binade (Z.pos n # d) - 52) (-1074))) as Hulp.
    fold ulp in Hulp.
    apply Qmult_le_0_compat; [| apply Qlt_le_weak; exact Hulp].
    change 0%Q with (inject_Z 0). rewrite <- Zle_Qle.
    apply nearest_even_nonneg. apply Qle_shift_div_l; [exact Hulp |].
    rewrite Qmult_0_l. exact Hx.
  - exfalso. unfold Qle in Hx. simpl in Hx. lia.
Qed.

Lemma cents_product_nonneg (value : Q) : (0 <= Float.mul (Qabs value) 100)%Q.
Proof.
  unfold Float.mul. apply round_nonneg.
  apply Qmult_le_0_compat; [apply Qabs_nonneg | discriminate].
Qed.

Lemma cents_of_floor (value : Q) :
  Calc.cents_of value = Qfloor (Float.mul (Qabs value) 100).
Proof. unfold Calc.cents_of. apply int_nonneg_floor, cents_product_nonneg. Qed.

Lemma cents_of_nonneg (value : Q) : 0 <= Calc.cents_of value.
Proof.
  rewrite cents_of_floor. change 0 with (Qfloor 0). apply Qfloor_resp_le.
  apply cents_product_nonneg.
Qed.

(** The float product decides the cents: the float 0.29 has 28 of them, and
    the float 1.20 has 120 although it lies below 1.2, its exact hundredfold
    truncating to 119. *)
Example cents_of_rounded :
  Calc.cents_of (Float.round (29 # 100)) = 28
  /\ Py.int (Float.round (120 # 100) * 100) = 119
  /\ Calc.cents_of (Float.round (120 # 100)) = 120.
Proof. repeat split; vm_compute; reflexivity. Qed.

(** C4: [optimal_base_for_value] is the first-match-wins sequence of the
    specification over the cents the code computes,
    [cents = floor(|value| * 100)] with the float product, and it sends 0 to
    Decimal and the floats 2.56 and 1.20 (cents 256 and 120) to Binary and
    Dozenal. *)
Theorem optimal_base_first_match :
  (forall value : Q,
      Calc.optimal_base_for_value value = Spec.optimal_base value
      /\ Calc.optimal_base_for_value value = Spec.base_of_cents (Calc.cents_of value))
  /\ Calc.optimal_base_for_value 0 = DECIMAL
  /\ Calc.cents_of (Float.round (256 # 100)) = 256
  /\ Calc.optimal_base_for_value (Float.round (256 # 100)) = BINARY
  /\ Calc.cents_of (Float.round (120 # 100)) = 120
  /\ Calc.optimal_base_for_value (Float.round (120 # 100)) = DOZENAL.
Proof.
  split; [| repeat split; vm_compute; reflexivity].
  intros value.
  assert (Calc.optimal_base_for_value value = Spec.base_of_cents (Calc.cents_of value))
    as Hrule; [| split; [unfold Spec.optimal_base; rewrite <- cents_of_floor |]; exact Hrule].
  unfold Calc.optimal_base_for_value, Spec.base_of_cents.
  pose proof (cents_of_nonneg value) as Hc.
  set (cents := Calc.cents_of value) in *.
  destruct (cents =? 0) eqn:E0; [reflexivity |].
  apply Z.eqb_neq in E0.
  assert ((0 <? cents) = true) as -> by (apply Z.ltb_lt; lia).
  rewrite andb_true_l.
  destruct (Z.land cents (cents - 1) =? 0); [reflexivity |].
  destruct ((cents mod 12 =? 0) || (cents mod 6 =? 0) || (cents mod 4 =? 0));
    [reflexivity |].
  destruct (cents mod 10 =? 0); [reflexivity |].
  simpl List.filter.
  destruct (cents mod 2 =? 0), (cents mod 3 =? 0), (cents mod 4 =? 0),
    (cents mod 6 =? 0); reflexivity.
Qed.

(** The scoring rule at the end never selects Dozenal: once rule 3 has failed,
    [cents] is not divisible by 4 or 6, hence not by both 2 and 3. *)
Lemma optimal_base_score_dead (cents : Z) :
  cents mod 6 <> 0 -> cents mod 4 <> 0 ->
  Z.b2z (cents mod 2 =? 0) + Z.b2z (cents mod 3 =? 0)
  + Z.b2z (cents mod 4 =? 0) + Z.b2z (cents mod 6 =? 0) < 2.
Proof.
  intros H6 H4.
  destruct (cents mod 2 =? 0) eqn:E2, (cents mod 3 =? 0) eqn:E3,
    (cents mod 4 =? 0) eqn:E4, (cents mod 6 =? 0) eqn:E6; simpl; try lia;
    try (apply Z.eqb_eq in E4; lia); try (apply Z.eqb_eq in E6; lia).
  apply Z.eqb_eq in E2, E3. apply Z.eqb_neq in E6.
  exfalso. apply E6.
  pose proof (Z.div_mod cents 2 ltac:(lia)).
  pose proof (Z.div_mod cents 3 ltac:(lia)).
  pose proof (Z.mod_pos_bound cents 6 ltac:(lia)).
  pose proof (Z.div_mod cents 6 ltac:(lia)). lia.
Qed.

(** C5, as amended: [optimal_base_for_value(1.00)] is Dozenal.  With
    [cents = 100] the power-of-two rule fails, and the base-12 rule matches
    through [100 % 4 == 0] before the divisibility-by-10 rule is reached. *)
Theorem optimal_base_one_dollar :
  Calc.cents_of 1 = 100
  /\ Z.land 100 (100 - 1) <> 0
  /\ 100 mod 12 <> 0 /\ 100 mod 6 <> 0 /\ 100 mod 4 = 0
  /\ Calc.optimal_base_for_value 1 = DOZENAL.
Proof. repeat split; discriminate. Qed.

(** C5 as stated fails: the base returned for 1.00 is not Decimal. *)
Lemma optimal_base_one_dollar_counterexample :
  Calc.optimal_base_for_value 1 <> DECIMAL.
Proof. discriminate. Qed.

(** ** Dozenal conversion *)

(** Every index from [-12] to [11] selects a digit: the negative ones count
    from the end of the alphabet. *)
Lemma digit_index_some (d : Z) :
  -12 <= d < 12 -> exists c, Py.str_index Calc.DOZENAL_DIGITS d = Some c.
Proof.
  intros Hd.
  assert (d = -12 \/ d = -11 \/ d = -10 \/ d = -9 \/ d = -8 \/ d = -7 \/ d = -6
          \/ d = -5 \/ d = -4 \/ d = -3 \/ d = -2 \/ d = -1 \/ d = 0 \/ d = 1
          \/ d = 2 \/ d = 3 \/ d = 4 \/ d = 5 \/ d = 6 \/ d = 7 \/ d = 8
          \/ d = 9 \/ d = 10 \/ d = 11) as Hcases by lia.
  repeat (destruct Hcases as [-> | Hcases]; [eexists; reflexivity |]).
  subst d. eexists; reflexivity.
Qed.

Lemma int_digits_total (fuel : nat) :
  forall (value : Z) (result : list ascii),
    value < 2 ^ Z.of_nat fuel ->
    exists r, Calc.int_digits fuel value result = Some r.
Proof.
  induction fuel as [| fuel IH]; intros value result Hv.
  - simpl in *. assert ((0 <? value) = false) as -> by (apply Z.ltb_ge; lia).
    eauto.
  - simpl Calc.int_digits. destruct (0 <? value) eqn:Epos; [| eauto].
    apply Z.ltb_lt in Epos.
    destruct (digit_index_some (value mod 12)) as [c ->].
    { pose proof (Z.mod_pos_bound value 12 ltac:(lia)). lia. }
    apply IH. apply Z.div_lt_upper_bound; [lia |].
    rewrite Nat2Z.inj_succ, Z.pow_succ_r in Hv by lia.
    pose proof (Z.pow_pos_nonneg 2 (Z.of_nat fuel) ltac:(lia) ltac:(lia)). lia.
Qed.

Lemma int_to_dozenal_total (value : Z) : exists s, Calc._int_to_dozenal value = Some s.
Proof.
  unfold Calc._int_to_dozenal. destruct (value =? 0) eqn:E0; [eauto |].
  apply Z.eqb_neq in E0.
  destruct (int_digits_total (S (Z.to_nat (Z.log2 (Z.abs value)))) (Z.abs value) [])
    as [r ->]; [| eauto].
  rewrite Nat2Z.inj_succ, Z2Nat.id by apply Z.log2_nonneg.
  apply Z.log2_spec. lia.
Qed.

(** [int(x)] stays inside any symmetric integer bound on [x], and within 1
    of [x]. *)
Lemma int_within (x : Q) (k : Z) :
  (- inject_Z k < x)%Q -> (x < inject_Z k)%Q ->
  - k < Py.int x < k /\ (- (1) < x - inject_Z (Py.int x))%Q
  /\ (x - inject_Z (Py.int x) < 1)%Q.
Proof.
  intros Hlo Hhi.
  destruct (Qlt_le_dec x 0) as [Hneg | Hpos].
  - destruct (int_bounds_neg x (Qlt_le_weak _ _ Hneg)) as [[H1 H2] H3].
    assert (- inject_Z k < inject_Z (Py.int x))%Q as Hk by lra.
    assert (inject_Z (Py.int x) < inject_Z k)%Q as Hk' by lra.
    rewrite <- inject_Z_opp in Hk. rewrite <- Zlt_Qlt in Hk, Hk'.
    repeat split; try assumption; lra.
  - destruct (int_bounds_nonneg x Hpos) as [[H1 H2] H3].
    assert (- inject_Z k < inject_Z (Py.int x))%Q as Hk by lra.
    assert (inject_Z (Py.int x) < inject_Z k)%Q as Hk' by lra.
    rewrite <- inject_Z_opp in Hk. rewrite <- Zlt_Qlt in Hk, Hk'.
    repeat split; try assumption; lra.
Qed.

Lemma frac_digits_total (n : nat) :
  forall (value : Q) (result : list ascii),
    (- (1) < value)%Q -> (value < 1)%Q ->
    exists r, Calc.frac_digits n value result = Some r.
Proof.
  induction n as [| n IH]; intros value result Hlo Hhi; [simpl; eauto |].
  simpl Calc.frac_digits.
  destruct (int_within (value * 12) 12) as [Hd [Hr1 Hr2]].
  { change (inject_Z 12) with 12%Q. lra. }
  { change (inject_Z 12) with 12%Q. lra. }
  destruct (digit_index_some (Py.int (value * 12))) as [c ->]; [lia |].
  destruct (Py.ltb _ _); [eauto |].
  apply IH; assumption.
Qed.

(** [to_dozenal] returns a string for every value: no index leaves the digit
    alphabet and the integer loop ends. *)
Lemma to_dozenal_total (value : Q) : exists s, Calc.to_dozenal value = Some s.
Proof.
  unfold Calc.to_dozenal. destruct (Py.eqb value 0); [eauto |].
  destruct (int_to_dozenal_total (Py.int value)) as [si ->].
  unfold Calc._frac_to_dozenal.
  destruct (Py.eqb _ 0); [simpl; eauto |].
  assert (exists k : Z, (- inject_Z k < value)%Q /\ (value < inject_Z k)%Q) as [k [Hk1 Hk2]].
  { exists (Z.abs (Qfloor value) + 1 + 1).
    pose proof (Qfloor_le value) as H1. pose proof (Qlt_floor value) as H2.
    rewrite !inject_Z_plus in *.
    assert (- inject_Z (Z.abs (Qfloor value)) <= inject_Z (Qfloor value))%Q as H3.
    { rewrite <- inject_Z_opp, <- Zle_Qle. lia. }
    assert (inject_Z (Qfloor value) <= inject_Z (Z.abs (Qfloor value)))%Q as H4.
    { rewrite <- Zle_Qle. lia. }
    change (inject_Z 1) with 1%Q in *. split; lra. }
  destruct (int_within value k Hk1 Hk2) as [_ [Hr1 Hr2]].
  destruct (frac_digits_total (Z.to_nat 8) (value - inject_Z (Py.int value)) [] Hr1 Hr2)
    as [r ->].
  destruct (String.eqb _ ""); eauto.
Qed.

(** C3 fails on the code at [value = -1.25].  The fractional part keeps its
    sign, [int(-0.25 * 12) = -3] indexes the digit alphabet from its end and
    yields ['9'], and the loop stops after that single digit because the
    residue is below [1e-10]: [to_dozenal(-1.25) = "-1.9"], which
    [from_dozenal] reads as [-1.75], one half away from the input. *)
Theorem dozenal_roundtrip_negative_fails :
  Calc.to_dozenal (- (125 # 100)) = Some "-1.9"%string
  /\ (exists back, Calc.from_dozenal "-1.9" = Some back
                   /\ (back == - (175 # 100))%Q
                   /\ (Qabs (back - - (125 # 100)) == 1 # 2)%Q
                   /\ ~ (Qabs (back - - (125 # 100)) <= 1 / inject_Z (12 ^ 8))%Q).
Proof.
  split; [reflexivity |].
  eexists. split; [reflexivity |].
  split; [reflexivity | split; [reflexivity |]].
  intros H. vm_compute in H. apply H. reflexivity.
Qed.

(** The same round trip on values that are not negative, for contrast, and
    the sign lost altogether when the integer part is zero. *)
Example dozenal_roundtrip_positive :
  Calc.to_dozenal (10025 # 100) = Some "84.3"%string
  /\ exists back, Calc.from_dozenal "84.3" = Some back /\ (back == 10025 # 100)%Q.
Proof. split; [reflexivity | eexists; split; reflexivity]. Qed.

Example dozenal_roundtrip_minus_half :
  Calc.to_dozenal (- (1 # 2)) = Some "0.6"%string
  /\ exists back, Calc.from_dozenal "0.6" = Some back /\ (back == 1 # 2)%Q.
Proof. split; [reflexivity | eexists; split; reflexivity]. Qed.

(** ** Pricing engine *)


(** ** Register protocol *)

Lemma write_reg_hardware (offset value : Z) (w : Driver.world) :
  Driver._write_reg Driver.hardware offset value w
  = Some (tt, Driver.World ((offset, Z.land value 0xFFFFFFFF) :: Driver.written w)
                (Driver.device w) (Driver.clock w)).
Proof. reflexivity. Qed.

Lemma word_mask_small (v : Z) : 0 <= v < 2 ^ 32 -> Z.land v 0xFFFFFFFF = v.
Proof.
  intros Hv. change 0xFFFFFFFF with (Z.ones 32).
  rewrite Z.land_ones by lia. apply Z.mod_small. exact Hv.
Qed.

(** Loading the inputs and starting: thirteen writes, no read, no clock
    reading. *)
Lemma load_and_start (bid ask last : Q) (bid_size ask_size : Z)
    (base_select risk_limit latency_budget_ns strategy_id : Z) (w : Driver.world) :
  Driver.bind
    (Driver.load_inputs Driver.hardware bid ask last bid_size ask_size
       base_select risk_limit latency_budget_ns strategy_id)
    (fun _ => Driver._write_reg Driver.hardware Driver.REG_CONTROL 0x03) w
  = Some (tt, Driver.World
                (Spec.transaction_writes bid ask last bid_size ask_size
                   base_select risk_limit latency_budget_ns strategy_id
                 ++ Driver.written w)
                (Driver.device w) (Driver.clock w)).
Proof.
  destruct (encode_words_range bid) as [Hb1 Hb2].
  destruct (encode_words_range ask) as [Ha1 Ha2].
  destruct (encode_words_range last) as [Hl1 Hl2].
  unfold Driver.load_inputs, Driver._write_price, Driver.bind, Driver._write_reg,
    Driver.mmio_write, Driver.hardware, Spec.transaction_writes.
  cbn [Driver.simulation_mode Driver.written Driver.device Driver.clock app].
  rewrite !(word_mask_small (Driver.price_h _)) by lia.
  rewrite !(word_mask_small (Driver.price_l _)) by lia.
  reflexivity.
Qed.

Lemma ltb_true (x y : Q) : (x < y)%Q -> Py.ltb x y = true.
Proof.
  intros H. unfold Py.ltb. destruct (Qlt_le_dec x y) as [_ | Hle]; [reflexivity |].
  exfalso. apply (Qlt_not_le _ _ H Hle).
Qed.

Lemma ltb_false (x y : Q) : (y <= x)%Q -> Py.ltb x y = false.
Proof.
  intros H. unfold Py.ltb. destruct (Qlt_le_dec x y) as [Hlt | _]; [| reflexivity].
  exfalso. apply (Qlt_not_le _ _ Hlt H).
Qed.

(** The loop runs through every pending poll; the first clock reading at or
    past the deadline sends it to its [else] branch, and no status is read
    for that turn. *)
Lemma wait_times_out (start_time timeout_s t_end : Q) (later : list Q)
    (images : list (Z -> Z)) (log : list (Z * Z)) (polls : list (Q * (Z -> Z))) :
  forall fuel : nat,
    (length polls < fuel)%nat ->
    Forall (Spec.pending start_time timeout_s) polls ->
    (timeout_s <= t_end - start_time)%Q ->
    Driver.wait_completion fuel Driver.hardware start_time timeout_s
      (Driver.World log (map snd polls ++ images) (map fst polls ++ t_end :: later))
    = Some (None, Driver.World log images later).
Proof.
  induction polls as [| [t image] polls IH]; intros fuel Hfuel Hpend Hend.
  - destruct fuel as [| fuel]; [simpl in Hfuel; lia |].
    simpl. unfold Driver.bind, Driver.time_time. simpl.
    rewrite (ltb_false _ _ Hend). reflexivity.
  - destruct fuel as [| fuel]; [simpl in Hfuel; lia |].
    inversion Hpend as [| ? ? [Ht Hs] Hrest]; subst. simpl in Ht, Hs.
    simpl. unfold Driver.bind, Driver.time_time. simpl.
    rewrite (ltb_true _ _ Ht). simpl.
    rewrite Hs. simpl.
    apply IH; [simpl in Hfuel; lia | assumption | assumption].
Qed.

(** The loop leaves by [break] at the first poll inside the budget that
    shows the completion bit. *)
Lemma wait_completes (start_time timeout_s t_done : Q) (done : Z -> Z) (later : list Q)
    (images : list (Z -> Z)) (log : list (Z * Z)) (polls : list (Q * (Z -> Z))) :
  forall fuel : nat,
    (length polls < fuel)%nat ->
    Forall (Spec.pending start_time timeout_s) polls ->
    (t_done - start_time < timeout_s)%Q ->
    Z.land (done Driver.REG_STATUS) 0x01 <> 0 ->
    Driver.wait_completion fuel Driver.hardware start_time timeout_s
      (Driver.World log (map snd polls ++ done :: images)
         (map fst polls ++ t_done :: later))
    = Some (Some (done Driver.REG_STATUS), Driver.World log images later).
Proof.
  induction polls as [| [t image] polls IH]; intros fuel Hfuel Hpend Hin Hbit.
  - destruct fuel as [| fuel]; [simpl in Hfuel; lia |].
    simpl. unfold Driver.bind, Driver.time_time. simpl.
    rewrite (ltb_true _ _ Hin). simpl.
    apply Z.eqb_neq in Hbit. rewrite Hbit. reflexivity.
  - destruct fuel as [| fuel]; [simpl in Hfuel; lia |].
    inversion Hpend as [| ? ? [Ht Hs] Hrest]; subst. simpl in Ht, Hs.
    simpl. unfold Driver.bind, Driver.time_time. simpl.
    rewrite (ltb_true _ _ Ht). simpl.
    rewrite Hs. simpl.
    apply IH; [simpl in Hfuel; lia | assumption | assumption | assumption].
Qed.

(** [optimize] on the hardware path is: one clock reading, the transaction
    writes, the wait, and then either the timeout dictionary or the reads. *)
Lemma optimize_hardware_eq (bid ask last : Q) (bid_size ask_size : Z)
    (base_select risk_limit latency_budget_ns strategy_id timeout_ms : Z)
    (start_time : Q) (log : list (Z * Z)) (images : list (Z -> Z)) (ticks : list Q) :
  Driver.optimize Driver.hardware bid ask last bid_size ask_size
    base_select risk_limit latency_budget_ns strategy_id timeout_ms
    (Driver.World log images (start_time :: ticks))
  = match Driver.wait_completion (S (length ticks)) Driver.hardware start_time
            (inject_Z timeout_ms / 1000)
            (Driver.World
               (Spec.transaction_writes bid ask last bid_size ask_size
                  base_select risk_limit latency_budget_ns strategy_id ++ log)
               images ticks) with
    | Some (None, w') => Some (Driver.timeout_result, w')
    | Some (Some status, w') =>
        Driver.read_results Driver.hardware start_time status bid ask w'
    | None => None
    end.
Proof.
  unfold Driver.optimize.
  unfold Driver.bind at 1. cbn [Driver.time_time Driver.clock Driver.written Driver.device
                                 Driver.simulation_mode Driver.hardware].
  pose proof (load_and_start bid ask last bid_size ask_size base_select risk_limit
                latency_budget_ns strategy_id (Driver.World log images ticks)) as Hload.
  unfold Driver.bind in Hload |- *.
  cbn [Driver.written Driver.device Driver.clock] in Hload.
  destruct (Driver.load_inputs _ _ _ _ _ _ _ _ _ _ _) as [[[] w1] |]; [| discriminate].
  rewrite Hload. cbn [Driver.clock].
  destruct (Driver.wait_completion _ _ _ _ _) as [[[status |] w'] |]; reflexivity.
Qed.

(** C7: on the hardware path, when every poll made within the budget finds
    the completion bit clear and the clock then reaches the deadline,
    [optimize] returns the timeout dictionary: [success] false, an error
    text, and none of the result fields.  The start command was written once,
    nothing was written after it, and no register is read after the deadline:
    the transaction is not tried again. *)
Theorem optimize_times_out (bid ask last : Q) (bid_size ask_size : Z)
    (base_select risk_limit latency_budget_ns strategy_id timeout_ms : Z)
    (start_time t_end : Q) (later : list Q) (polls : list (Q * (Z -> Z)))
    (images : list (Z -> Z)) (log : list (Z * Z)) :
  Forall (Spec.pending start_time (inject_Z timeout_ms / 1000)) polls ->
  (inject_Z timeout_ms / 1000 <= t_end - start_time)%Q ->
  Driver.optimize Driver.hardware bid ask last bid_size ask_size
    base_select risk_limit latency_budget_ns strategy_id timeout_ms
    (Driver.World log (map snd polls ++ images)
       (start_time :: map fst polls ++ t_end :: later))
  = Some (Driver.timeout_result,
          Driver.World
            (Spec.transaction_writes bid ask last bid_size ask_size
               base_select risk_limit latency_budget_ns strategy_id ++ log)
            images later)
  /\ Driver.timeout_result !! "success"%string = Some (PyBool false)
  /\ dom Driver.timeout_result = {[ "error"%string; "success"%string ]}
  /\ Forall (fun field => Driver.timeout_result !! field = None) Spec.result_fields.
Proof.
  intros Hpend Hend. split; [| split; [reflexivity | split]].
  - rewrite optimize_hardware_eq.
    rewrite (wait_times_out _ _ t_end later images _ polls); try assumption.
    + reflexivity.
    + rewrite length_app, length_map. simpl. lia.
  - reflexivity.
  - unfold Spec.result_fields. repeat constructor.
Qed.

Lemma optimize_times_out_witness :
  Forall (Spec.pending 0 (inject_Z 100 / 1000))
    [((1 # 100)%Q, fun _ : Z => 0); ((5 # 100)%Q, fun _ : Z => 0)]
  /\ (inject_Z 100 / 1000 <= (2 # 10) - 0)%Q
  /\ Driver.optimize Driver.hardware 1 2 1 10 10 0 100000 1000 0 100
       (Driver.World [] [fun _ => 0; fun _ => 0] [0; 1 # 100; 5 # 100; 2 # 10]%Q)
     = Some (Driver.timeout_result,
             Driver.World (Spec.transaction_writes 1 2 1 10 10 0 100000 1000 0 ++ [])
               [] []).
Proof.
  split; [repeat constructor |]. split; [discriminate |].
  apply (optimize_times_out 1 2 1 10 10 0 100000 1000 0 100 0 (2 # 10) []
           [((1 # 100)%Q, fun _ => 0); ((5 # 100)%Q, fun _ => 0)] [] []).
  - repeat constructor.
  - discriminate.
Defined.

(** ** Software fallback *)

Lemma read_reg_hardware (offset : Z) (w : Driver.world) (v : Z) (w' : Driver.world) :
  Driver._read_reg Driver.hardware offset w = Some (v, w') ->
  exists image rest,
    Driver.device w = image :: rest /\ v = image offset
    /\ w' = Driver.World (Driver.written w) rest (Driver.clock w).
Proof.
  unfold Driver._read_reg, Driver.mmio_read. simpl.
  destruct (Driver.device w) as [| image rest]; [discriminate |].
  intros [= <- <-]. eauto.
Qed.

(** A completed transaction returns the fifteen-field dictionary, whatever
    the registers hold. *)
Lemma read_results_shape (start_time : Q) (status : Z) (bid ask : Q)
    (w w' : Driver.world) (hw : gmap string pyval) :
  Driver.read_results Driver.hardware start_time status bid ask w = Some (hw, w') ->
  exists (entry_price exit_price confidence latency_us : Q)
         (quantity expected_profit base_used cycles_taken base12_advantage comp_per_sec : Z)
         (trade_signal : bool),
    hw = list_to_map [
      ("success", PyBool true);
      ("entry_price", PyFloat entry_price);
      ("exit_price", PyFloat exit_price);
      ("quantity", PyInt quantity);
      ("expected_profit", PyInt expected_profit);
      ("confidence", PyFloat confidence);
      ("base_used", PyStr (Driver.base_names base_used));
      ("base_used_id", PyInt base_used);
      ("cycles_taken", PyInt cycles_taken);
      ("base12_advantage_cycles", PyInt base12_advantage);
      ("computations_per_sec", PyInt comp_per_sec);
      ("latency_us", PyFloat latency_us);
      ("trade_signal", PyBool trade_signal);
      ("spread", PyFloat (ask - bid));
      ("mid_price", PyFloat ((bid + ask) / 2))
    ]%string.
Proof.
  unfold Driver.read_results, Driver._read_price, Driver.bind.
  repeat (cbv beta iota delta [Driver.ret];
          match goal with
          | |- context [Driver._read_reg Driver.hardware ?o ?x] =>
              destruct (Driver._read_reg Driver.hardware o x) as [[? ?] |];
              [| discriminate]
          end).
  cbv beta iota delta [Driver.ret].
  match goal with
  | |- context [Driver.time_time ?x] =>
      destruct (Driver.time_time x) as [[? ?] |]; [| discriminate]
  end.
  intros [= <- <-]. do 11 eexists. reflexivity.
Qed.

(** C8: whenever the hardware path succeeds, the dictionary of the software
    fallback for the same inputs has the same fields, each holding a value of
    the same Python type, and one more: ["mode"], set to ["simulation"],
    which the hardware dictionary does not have. *)
Theorem fallback_same_fields (bid ask last : Q) (bid_size ask_size : Z)
    (base_select risk_limit latency_budget_ns strategy_id timeout_ms : Z)
    (w_hw w_hw' w_sw w_sw' : Driver.world) (hw sw : gmap string pyval) :
  Driver.optimize Driver.hardware bid ask last bid_size ask_size
    base_select risk_limit latency_budget_ns strategy_id timeout_ms w_hw
  = Some (hw, w_hw') ->
  hw !! "success"%string = Some (PyBool true) ->
  Driver.optimize Driver.simulated bid ask last bid_size ask_size
    base_select risk_limit latency_budget_ns strategy_id timeout_ms w_sw
  = Some (sw, w_sw') ->
  dom hw = list_to_set ("success"%string :: Spec.result_fields)
  /\ dom sw = dom hw ∪ {[ "mode"%string ]}
  /\ ("mode"%string ∉ dom hw)
  /\ sw !! "mode"%string = Some (PyStr "simulation")
  /\ Forall (fun field =>
               exists v v', hw !! field = Some v /\ sw !! field = Some v'
                            /\ Py.type_of v = Py.type_of v')
            ("success"%string :: Spec.result_fields).
Proof.
  intros Hhw Hok Hsw.
  assert (sw = Driver._simulate_optimization bid ask last bid_size ask_size) as ->.
  { unfold Driver.optimize, Driver.bind, Driver.time_time in Hsw.
    destruct (Driver.clock w_sw); [discriminate |].
    simpl in Hsw. unfold Driver.ret in Hsw. congruence. }
  destruct w_hw as [log images [| start_time ticks]]; [discriminate |].
  rewrite optimize_hardware_eq in Hhw.
  destruct (Driver.wait_completion _ _ _ _ _) as [[[status |] w1] |];
    [| | discriminate].
  2:{ injection Hhw as <- <-. discriminate Hok. }
  apply read_results_shape in Hhw.
  destruct Hhw as (ep & xp & cf & lat & q & pr & bu & cy & adv & cps & ts & ->).
  unfold Driver._simulate_optimization, Spec.result_fields.
  split; [reflexivity |]. split; [reflexivity |].
  split; [vm_compute; intros H; discriminate H |].
  split; [reflexivity |].
  repeat constructor; do 2 eexists; (split; [reflexivity |]); split; reflexivity.
Qed.

(** The expected profit of the fallback follows the float chain: for bid 0,
    ask 3 and sizes 2 the exit price exceeds the entry price by a little
    less than 1.5, and the profit is 1499. *)
Example simulate_expected_profit_rounded :
  Driver._simulate_optimization 0 3 0 2 2 !! "expected_profit"%string
  = Some (PyInt 1499).
Proof. vm_compute. reflexivity. Qed.

(** A run of the hardware path that completes at its first poll. *)
Lemma hardware_run_completes :
  exists (hw : gmap string pyval) (w' : Driver.world),
    Driver.optimize Driver.hardware 1 2 1 10 10 0 100000 1000 0 100
      (Driver.World [] (repeat (fun _ => 1) 12) [0; 1 # 100; 2 # 100]%Q)
    = Some (hw, w')
    /\ hw !! "success"%string = Some (PyBool true).
Proof.
  do 2 eexists. split.
  - rewrite optimize_hardware_eq.
    rewrite (wait_completes _ _ (1 # 100)%Q (fun _ => 1) [(2 # 100)%Q]
               (repeat (fun _ => 1) 11) _ []);
      [| simpl; lia | constructor | reflexivity | discriminate].
    cbv -[list_to_map]. reflexivity.
  - reflexivity.
Qed.

Lemma fallback_same_fields_witness :
  exists (hw : gmap string pyval) (w' : Driver.world),
    Driver.optimize Driver.hardware 1 2 1 10 10 0 100000 1000 0 100
      (Driver.World [] (repeat (fun _ => 1) 12) [0; 1 # 100; 2 # 100]%Q)
    = Some (hw, w')
    /\ hw !! "success"%string = Some (PyBool true)
    /\ dom (Driver._simulate_optimization 1 2 1 10 10) = dom hw ∪ {[ "mode"%string ]}.
Proof.
  destruct hardware_run_completes as (hw & w' & Hrun & Hok).
  exists hw, w'. split; [exact Hrun |]. split; [exact Hok |].
  refine (proj1 (proj2
    (fallback_same_fields 1 2 1 10 10 0 100000 1000 0 100 _ _
       (Driver.World [] [] [0%Q]) (Driver.World [] [] []) hw
       (Driver._simulate_optimization 1 2 1 10 10) Hrun Hok _))).
  reflexivity.
Defined.

(** ** Risk sizing *)

Lemma min_le_r (a b : Q) : (Py.min a b <= b)%Q.
Proof.
  unfold Py.min. destruct (Qlt_le_dec b a) as [_ | Hle]; [apply Qle_refl | exact Hle].
Qed.

Lemma min_spec (a b : Q) : (Py.min a b == Qmin a b)%Q.
Proof.
  unfold Py.min. destruct (Qlt_le_dec b a) as [Hlt | Hle].
  - symmetry. apply Q.min_r. apply Qlt_le_weak. exact Hlt.
  - symmetry. apply Q.min_l. exact Hle.
Qed.

(** C9, as amended: for a spread that is not negative and a quantity and a
    market depth that do not have opposite signs
    ([quantity * market_depth >= 0]) and whose ratio, where the depth is not
    zero, is small enough for its power 1.5 to be a finite float
    ([|quantity| < 2^682 * |market_depth|]), [estimate_slippage] returns
    [spread * 0.5] when the depth is zero and otherwise the minimum of
    [spread * 0.25 * (1 + (quantity / market_depth) ** 1.5)] and [spread]; the
    result never exceeds [spread], and it is 0.5 for quantity 0, spread 1.0
    and depth 0.  The power is whatever float [**] returns. *)
Theorem estimate_slippage_spec (float_pow : Q -> Q -> Q)
    (quantity : Z) (spread : Q) (market_depth : Z) :
  0 <= quantity * market_depth ->
  (market_depth <> 0 -> Z.abs quantity < 2 ^ 682 * Z.abs market_depth) ->
  (0 <= spread)%Q ->
  exists slippage : Q,
    HFT.estimate_slippage float_pow quantity spread market_depth = Some slippage
    /\ (market_depth = 0 -> (slippage == spread * (1 # 2))%Q)
    /\ (market_depth <> 0 ->
        (slippage ==
         Qmin (spread * (1 # 4)
               * (1 + float_pow (inject_Z quantity / inject_Z market_depth) (3 # 2)))
              spread)%Q)
    /\ (slippage <= spread)%Q
    /\ HFT.estimate_slippage float_pow 0 1 0 = Some (1 # 2)%Q.
Proof.
  intros Hsigns _ Hs. unfold HFT.estimate_slippage.
  destruct (market_depth =? 0) eqn:E0.
  - apply Z.eqb_eq in E0. eexists. split; [reflexivity |].
    split; [intros _; reflexivity |]. split; [intros Hne; contradiction |].
    split; [lra | reflexivity].
  - apply Z.eqb_neq in E0.
    assert (0 <= inject_Z quantity / inject_Z market_depth)%Q as Hratio.
    { destruct market_depth as [| d | d], quantity as [| q | q];
        try lia; try (simpl in Hsigns; lia);
        unfold Qle, Qdiv, Qmult, Qinv; simpl; lia. }
    rewrite (ltb_false _ _ Hratio).
    eexists. split; [reflexivity |].
    split; [intros H0; contradiction |]. split; [intros _; apply min_spec |].
    split; [apply min_le_r | reflexivity].
Qed.

Lemma estimate_slippage_spec_witness :
  0 <= (-50) * (-100) /\ Z.abs (-50) < 2 ^ 682 * Z.abs (-100) /\ (0 <= 1)%Q /\
  exists slippage : Q,
    HFT.estimate_slippage (fun x _ => x * x)%Q (-50) 1 (-100) = Some slippage
    /\ (slippage <= 1)%Q.
Proof.
  split; [lia |]. split; [reflexivity |]. split; [discriminate |].
  destruct (estimate_slippage_spec (fun x _ => x * x)%Q (-50) 1 (-100))
    as (s & Hs & _ & _ & Hle & _); [lia | intros _; reflexivity | discriminate |].
  exists s. split; assumption.
Defined.

(** C9 as stated fails at quantity 1, spread 1.0 and market depth -1: the
    ratio is -1, its power 1.5 is a complex number, and [min] raises
    [TypeError] instead of returning. *)
Lemma estimate_slippage_spec_counterexample :
  (0 <= 1)%Q /\ (-1 <> 0)%Z
  /\ forall float_pow : Q -> Q -> Q,
       HFT.estimate_slippage float_pow 1 1 (-1) = None.
Proof. split; [discriminate | split; [discriminate | intros float_pow; reflexivity]]. Qed.

(** ** Performance statistics *)

(** The counters of a reachable object are never negative: they start at 0
    and each call adds one to one of them. *)
Lemma reachable_counters_nonneg (self : HFT.HFTOptimizer) :
  HFT.reachable self ->
  0 <= HFT.base12_operations (HFT.performance_stats self)
  /\ 0 <= HFT.base10_operations (HFT.performance_stats self)
  /\ 0 <= HFT.base2_operations (HFT.performance_stats self).
Proof.
  induction 1 as [accelerated | self bid ask last strategy result self' _ IH Hcall].
  - simpl. lia.
  - unfold HFT.optimize_price_levels in Hcall.
    destruct (Calc.optimal_base_for_value _);
      try destruct (HFT._optimize_dozenal _ _ _ _ _);
      try discriminate; injection Hcall as _ <-; simpl; lia.
Qed.

Lemma percentages_sum (a b c : Z) :
  a + b + c <> 0 ->
  (inject_Z (100 * a) / inject_Z (a + b + c)
   + inject_Z (100 * b) / inject_Z (a + b + c)
   + inject_Z (100 * c) / inject_Z (a + b + c) == 100)%Q.
Proof.
  intros Ht.
  assert (~ inject_Z (a + b + c) == 0)%Q as Hne.
  { change 0%Q with (inject_Z 0). rewrite inject_Z_injective. exact Ht. }
  rewrite !inject_Z_mult. revert Hne. rewrite !inject_Z_plus. intros Hne.
  change (inject_Z 100) with 100%Q. field. exact Hne.
Qed.

(** C10: [get_performance_stats] never divides by zero.  With counters that
    are not negative, as the counters of the object always are: when the
    three base counters are all zero it returns the raw counter record, with
    no total and no percentage field; when their total is positive it returns
    in addition [total_operations] and the three percentages
    [100 * counter / total], which sum to 100. *)
Theorem get_performance_stats_spec (self : HFT.HFTOptimizer) :
  let st := HFT.performance_stats self in
  let total :=
    HFT.base12_operations st + HFT.base10_operations st + HFT.base2_operations st in
  0 <= HFT.base12_operations st ->
  0 <= HFT.base10_operations st ->
  0 <= HFT.base2_operations st ->
  exists d : gmap string pyval,
    HFT.get_performance_stats self = Some d
    /\ (HFT.base12_operations st = 0 /\ HFT.base10_operations st = 0
        /\ HFT.base2_operations st = 0 ->
        d = HFT.stats_dict st
        /\ dom d = {[ "base12_operations"; "base10_operations"; "base2_operations";
                      "total_savings_cycles" ]}%string)
    /\ (0 < total ->
        exists p12 p10 p2 : Q,
          d = <["base2_percentage"%string := PyFloat p2]>
                (<["base10_percentage"%string := PyFloat p10]>
                   (<["base12_percentage"%string := PyFloat p12]>
                      (<["total_operations"%string := PyInt total]> (HFT.stats_dict st))))
          /\ (p12 == inject_Z (100 * HFT.base12_operations st) / inject_Z total)%Q
          /\ (p10 == inject_Z (100 * HFT.base10_operations st) / inject_Z total)%Q
          /\ (p2 == inject_Z (100 * HFT.base2_operations st) / inject_Z total)%Q
          /\ (p12 + p10 + p2 == 100)%Q)
    /\ (is_Some (d !! "base12_percentage"%string)
        \/ is_Some (d !! "base10_percentage"%string)
        \/ is_Some (d !! "base2_percentage"%string)
        \/ is_Some (d !! "total_operations"%string) -> 0 < total).
Proof.
  intros st total H12 H10 H2. unfold HFT.get_performance_stats.
  fold st. fold total.
  destruct (total =? 0) eqn:E0.
  - apply Z.eqb_eq in E0. eexists. split; [reflexivity |].
    split; [intros _; split; reflexivity |].
    split; [intros Hpos; lia |].
    intros [H | [H | [H | H]]]; exfalso; revert H; unfold HFT.stats_dict;
      vm_compute; intros [v Hv]; discriminate Hv.
  - apply Z.eqb_neq in E0. unfold HFT.truediv.
    assert ((total =? 0) = false) as -> by (apply Z.eqb_neq; exact E0).
    eexists. split; [reflexivity |].
    split; [intros (Ha & Hb & Hc); exfalso; apply E0; unfold total; lia |].
    split; [| intros _; lia].
    intros _. do 3 eexists. split; [reflexivity |].
    repeat (split; [reflexivity |]).
    apply percentages_sum. exact E0.
Qed.

Lemma get_performance_stats_spec_witness :
  exists d : gmap string pyval,
    HFT.get_performance_stats
      {| HFT.fpga_accelerated := false; HFT.performance_stats := HFT.Stats 1 2 1 35 |}
    = Some d
    /\ d !! "total_operations"%string = Some (PyInt 4).
Proof.
  destruct (get_performance_stats_spec
              {| HFT.fpga_accelerated := false;
                 HFT.performance_stats := HFT.Stats 1 2 1 35 |})
    as (d & Hd & _ & Hpos & _); [simpl; lia | simpl; lia | simpl; lia |].
  exists d. split; [exact Hd |].
  destruct Hpos as (p12 & p10 & p2 & -> & _); [simpl; lia |].
  reflexivity.
Defined.

(** * Further properties of the code *)

(** ** Codec *)

(** [int] does not depend on how the rational is written. *)
Lemma int_proper (x y : Q) : (x == y)%Q -> Py.int x = Py.int y.
Proof.
  intros Hxy. destruct (Qlt_le_dec x 0) as [Hneg | Hpos].
  - rewrite !int_neg_ceiling; [apply Qceiling_comp, Hxy | |]; lra.
  - rewrite !int_nonneg_floor; [apply Qfloor_comp, Hxy | |]; lra.
Qed.

Lemma combine_range (h l : Z) :
  0 <= l < 2 ^ 32 ->
  Driver.combine h l = (h mod 2 ^ 16) * 2 ^ 32 + l
  /\ 0 <= Driver.combine h l < 2 ^ 48.
Proof.
  intros Hl. unfold Driver.combine.
  change 0xFFFF with (Z.ones 16). rewrite Z.land_ones by lia.
  rewrite lor_shiftl_low by exact Hl.
  pose proof (Z.mod_pos_bound h (2 ^ 16) ltac:(lia)). split; [reflexivity | lia].
Qed.

(** X1: whatever the high register holds, a price read back from a 32-bit
    low word is never negative and stays below [2^16]. *)
Theorem decode_range (h l : Z) :
  0 <= l < 2 ^ 32 ->
  (0 <= Driver.decode (h, l) /\ Driver.decode (h, l) < inject_Z (2 ^ 16))%Q.
Proof.
  intros Hl. destruct (combine_range h l Hl) as [_ [Hlo Hhi]].
  unfold Driver.decode. simpl fst. simpl snd.
  set (c := Driver.combine h l) in *.
  split.
  - apply Qle_shift_div_l; [reflexivity |]. rewrite Qmult_0_l.
    change 0%Q with (inject_Z 0). rewrite <- Zle_Qle. exact Hlo.
  - apply Qlt_shift_div_r; [reflexivity |].
    rewrite <- inject_Z_mult, <- Zlt_Qlt. exact Hhi.
Qed.

Lemma decode_range_witness :
  0 <= 5 < 2 ^ 32 /\
  (0 <= Driver.decode ((-1)%Z, 5%Z) /\ Driver.decode ((-1)%Z, 5%Z) < inject_Z (2 ^ 16))%Q.
Proof. split; [lia | apply decode_range; lia]. Defined.

(** X2: encoding what was decoded gives the two words back: for a 16-bit
    high word and a 32-bit low word, [encode (decode (h, l)) = (h, l)]. *)
Theorem encode_decode_words (h l : Z) :
  0 <= h < 2 ^ 16 -> 0 <= l < 2 ^ 32 ->
  Driver.encode (Driver.decode (h, l)) = (h, l).
Proof.
  intros Hh Hl. destruct (combine_range h l Hl) as [Hc [Hlo Hhi]].
  rewrite Z.mod_small in Hc by exact Hh.
  assert (Driver.fixed_price (Driver.decode (h, l)) = Driver.combine h l) as Hf.
  { unfold Driver.fixed_price, Driver.decode. simpl fst. simpl snd.
    rewrite <- (int_inject_Z (Driver.combine h l)) at 2.
    apply int_proper. field. discriminate. }
  unfold Driver.encode, Driver.price_h, Driver.price_l. rewrite Hf, Hc.
  change 0xFFFF with (Z.ones 16). change 0xFFFFFFFF with (Z.ones 32).
  rewrite !Z.land_ones by lia. rewrite Z.shiftr_div_pow2 by lia.
  f_equal.
  - rewrite Z.div_add_l by lia. rewrite (Z.div_small l) by lia.
    rewrite Z.add_0_r. apply Z.mod_small. exact Hh.
  - rewrite Z.add_comm, Z.mod_add by lia. apply Z.mod_small. exact Hl.
Qed.

Lemma encode_decode_words_witness :
  0 <= 7 < 2 ^ 16 /\ 0 <= 9 < 2 ^ 32 /\ Driver.encode (Driver.decode (7, 9)) = (7, 9).
Proof. split; [lia | split; [lia | apply encode_decode_words; lia]]. Defined.

(** X3: a negative price in range comes back [2^16] too high: for
    [-2^16 < price <= -2^-32], the decoded value is within [2^-32] of
    [price + 65536]. *)
Theorem decode_encode_negative_shift (price : Q) :
  (- inject_Z (2 ^ 16) < price)%Q -> (price <= - (1 # 2 ^ 32))%Q ->
  (Qabs (Driver.decode (Driver.encode price) - (price + inject_Z (2 ^ 16)))
   < 1 / inject_Z (2 ^ 32))%Q.
Proof.
  intros H0 H1. rewrite (decode_encode_neg price H0 H1).
  unfold Driver.fixed_price.
  assert (price * inject_Z (2 ^ 32) <= 0)%Q as Hs.
  { change (inject_Z (2 ^ 32)) with (4294967296 # 1)%Q.
    change (1 # 2 ^ 32)%Q with (1 # 4294967296)%Q in H1. lra. }
  destruct (int_bounds_neg _ Hs) as [[Hle _] Hlt].
  set (f := inject_Z (Py.int (price * inject_Z (2 ^ 32)))) in *.
  change (inject_Z (2 ^ 32)) with (4294967296 # 1)%Q in *.
  change (inject_Z (2 ^ 16)) with (65536 # 1)%Q in *.
  apply Qabs_Qlt_condition.
  assert (f / (4294967296 # 1) * (4294967296 # 1) == f)%Q as Hd by (field; discriminate).
  change (1 / (4294967296 # 1))%Q with (1 # 4294967296)%Q.
  revert Hd. generalize (f / (4294967296 # 1))%Q. intros d Hd.
  split; lra.
Qed.

Lemma decode_encode_negative_shift_witness :
  (- inject_Z (2 ^ 16) < - (3 # 2))%Q /\ (- (3 # 2) <= - (1 # 2 ^ 32))%Q /\
  (Qabs (Driver.decode (Driver.encode (- (3 # 2))) - (- (3 # 2) + inject_Z (2 ^ 16)))
   < 1 / inject_Z (2 ^ 32))%Q.
Proof.
  split; [reflexivity | split; [discriminate |]].
  apply decode_encode_negative_shift; [reflexivity | discriminate].
Defined.

(** ** Register protocol: what a call does to the peripheral *)

Lemma read_reg_written (self : Driver.MultiBaseOptimizer) (offset v : Z)
    (w w' : Driver.world) :
  Driver._read_reg self offset w = Some (v, w') ->
  Driver.written w' = Driver.written w.
Proof.
  unfold Driver._read_reg, Driver.mmio_read, Driver.ret.
  destruct (Driver.simulation_mode self); [intros [= _ <-]; reflexivity |].
  destruct (Driver.device w); [discriminate |]. intros [= _ <-]. reflexivity.
Qed.

Lemma time_time_written (t : Q) (w w' : Driver.world) :
  Driver.time_time w = Some (t, w') -> Driver.written w' = Driver.written w.
Proof.
  unfold Driver.time_time. destruct (Driver.clock w); [discriminate |].
  intros [= _ <-]. reflexivity.
Qed.

(** The polling loop never writes a register. *)
Lemma wait_written (self : Driver.MultiBaseOptimizer) (start_time timeout_s : Q)
    (fuel : nat) :
  forall (w w' : Driver.world) (outcome : option Z),
    Driver.wait_completion fuel self start_time timeout_s w = Some (outcome, w') ->
    Driver.written w' = Driver.written w.
Proof.
  induction fuel as [| fuel IH]; intros w w' outcome Hrun; [discriminate |].
  simpl in Hrun. unfold Driver.bind in Hrun.
  destruct (Driver.time_time w) as [[now w1] |] eqn:Et; [| discriminate].
  apply time_time_written in Et.
  destruct (Py.ltb _ _).
  - destruct (Driver._read_reg self Driver.REG_STATUS w1) as [[status w2] |] eqn:Er;
      [| discriminate].
    apply read_reg_written in Er.
    destruct (Z.land status 1 =? 0).
    + apply IH in Hrun. congruence.
    + unfold Driver.ret in Hrun. injection Hrun as _ <-. congruence.
  - unfold Driver.ret in Hrun. injection Hrun as _ <-. congruence.
Qed.

(** Reading the results never writes a register. *)
Lemma read_results_written (self : Driver.MultiBaseOptimizer) (start_time : Q)
    (status : Z) (bid ask : Q) (w w' : Driver.world) (d : gmap string pyval) :
  Driver.read_results self start_time status bid ask w = Some (d, w') ->
  Driver.written w' = Driver.written w.
Proof.
  unfold Driver.read_results, Driver._read_price, Driver.bind.
  repeat (cbv beta iota delta [Driver.ret];
          match goal with
          | |- context [Driver._read_reg self ?o ?x] =>
              let E := fresh "E" in
              destruct (Driver._read_reg self o x) as [[? ?] |] eqn:E;
              [apply read_reg_written in E | discriminate]
          end).
  cbv beta iota delta [Driver.ret].
  match goal with
  | |- context [Driver.time_time ?x] =>
      let E := fresh "E" in
      destruct (Driver.time_time x) as [[? ?] |] eqn:E;
      [apply time_time_written in E | discriminate]
  end.
  intros [= _ <-]. congruence.
Qed.

Lemma transaction_writes_words (bid ask last : Q) (bid_size ask_size : Z)
    (base_select risk_limit latency_budget_ns strategy_id : Z) :
  Forall (fun write : Z * Z => 0 <= snd write < 2 ^ 32)
    (Spec.transaction_writes bid ask last bid_size ask_size
       base_select risk_limit latency_budget_ns strategy_id).
Proof.
  assert (forall v, 0 <= Z.land v 0xFFFFFFFF < 2 ^ 32) as Hword.
  { intros v. change 0xFFFFFFFF with (Z.ones 32). rewrite Z.land_ones by lia.
    apply Z.mod_pos_bound. lia. }
  destruct (encode_words_range bid) as [Hb1 Hb2].
  destruct (encode_words_range ask) as [Ha1 Ha2].
  destruct (encode_words_range last) as [Hl1 Hl2].
  unfold Spec.transaction_writes.
  repeat (constructor; [simpl snd; first [apply Hword | lia] |]).
  constructor.
Qed.

(** X4: whatever the outcome of a hardware call, what it did to the
    peripheral is the one transaction: the thirteen writes ending in a single
    start command, each value a 32-bit word even for negative or oversized
    inputs, and nothing written while polling or reading results.  What it
    returns is either the timeout dictionary or a success dictionary with the
    fifteen result fields. *)
Theorem optimize_hardware_outcome (bid ask last : Q) (bid_size ask_size : Z)
    (base_select risk_limit latency_budget_ns strategy_id timeout_ms : Z)
    (w w' : Driver.world) (d : gmap string pyval) :
  Driver.optimize Driver.hardware bid ask last bid_size ask_size
    base_select risk_limit latency_budget_ns strategy_id timeout_ms w = Some (d, w') ->
  Driver.written w'
  = Spec.transaction_writes bid ask last bid_size ask_size
      base_select risk_limit latency_budget_ns strategy_id ++ Driver.written w
  /\ Forall (fun write : Z * Z => 0 <= snd write < 2 ^ 32)
       (Spec.transaction_writes bid ask last bid_size ask_size
          base_select risk_limit latency_budget_ns strategy_id)
  /\ (d = Driver.timeout_result
      \/ (d !! "success"%string = Some (PyBool true)
          /\ dom d = list_to_set ("success"%string :: Spec.result_fields))).
Proof.
  intros Hrun. split; [| split; [apply transaction_writes_words |]];
    destruct w as [log images [| start_time ticks]]; try discriminate;
    rewrite optimize_hardware_eq in Hrun;
    destruct (Driver.wait_completion _ _ _ _ _) as [[[status |] w1] |] eqn:Ew;
    try discriminate; apply wait_written in Ew; simpl in Ew.
  - apply read_results_written in Hrun. simpl. congruence.
  - injection Hrun as _ <-. simpl. congruence.
  - right. apply read_results_shape in Hrun.
    destruct Hrun as (ep & xp & cf & lat & q & pr & bu & cy & adv & cps & ts & ->).
    split; reflexivity.
  - left. injection Hrun as <- _. reflexivity.
Qed.

Lemma optimize_hardware_outcome_witness :
  exists (d : gmap string pyval) (w' : Driver.world),
    Driver.optimize Driver.hardware 1 2 1 10 10 0 100000 1000 0 100
      (Driver.World [] (repeat (fun _ => 1) 12) [0; 1 # 100; 2 # 100]%Q)
    = Some (d, w')
    /\ Driver.written w'
       = Spec.transaction_writes 1 2 1 10 10 0 100000 1000 0 ++ [].
Proof.
  destruct hardware_run_completes as (hw & w' & Hrun & _).
  exists hw, w'. split; [exact Hrun |].
  exact (proj1 (optimize_hardware_outcome _ _ _ _ _ _ _ _ _ _ _ _ _ Hrun)).
Defined.

(** X5: a transaction the peripheral completes.  When the polls made inside
    the budget first find the completion bit clear and then, still inside the
    budget, set, [optimize] stops polling there, reads the eleven result
    registers once each in the order of the source, takes one more clock
    reading for the latency and returns them decoded: prices through the
    codec, confidence divided by 100, the trade signal from bit 16 of the
    status word that showed completion. *)
Theorem optimize_completes (bid ask last : Q) (bid_size ask_size : Z)
    (base_select risk_limit latency_budget_ns strategy_id timeout_ms : Z)
    (start_time t_done t_read : Q) (later : list Q) (polls : list (Q * (Z -> Z)))
    (done r1 r2 r3 r4 r5 r6 r7 r8 r9 r10 r11 : Z -> Z)
    (images : list (Z -> Z)) (log : list (Z * Z)) :
  Forall (Spec.pending start_time (inject_Z timeout_ms / 1000)) polls ->
  (t_done - start_time < inject_Z timeout_ms / 1000)%Q ->
  Z.land (done Driver.REG_STATUS) 0x01 <> 0 ->
  Driver.optimize Driver.hardware bid ask last bid_size ask_size
    base_select risk_limit latency_budget_ns strategy_id timeout_ms
    (Driver.World log
       (map snd polls
        ++ done :: r1 :: r2 :: r3 :: r4 :: r5 :: r6 :: r7 :: r8 :: r9 :: r10 :: r11
             :: images)
       (start_time :: map fst polls ++ t_done :: t_read :: later))
  = Some (list_to_map [
            ("success", PyBool true);
            ("entry_price",
             PyFloat (Driver.decode (r1 Driver.REG_RESULT_PRICE_H,
                                     r2 Driver.REG_RESULT_PRICE_L)));
            ("exit_price",
             PyFloat (Driver.decode (r3 Driver.REG_EXIT_PRICE_H,
                                     r4 Driver.REG_EXIT_PRICE_L)));
            ("quantity", PyInt (r5 Driver.REG_QUANTITY));
            ("expected_profit", PyInt (r6 Driver.REG_EXPECTED_PROFIT));
            ("confidence", PyFloat (inject_Z (r7 Driver.REG_CONFIDENCE) / 100));
            ("base_used", PyStr (Driver.base_names (r8 Driver.REG_BASE_USED)));
            ("base_used_id", PyInt (r8 Driver.REG_BASE_USED));
            ("cycles_taken", PyInt (r9 Driver.REG_CYCLES_TAKEN));
            ("base12_advantage_cycles", PyInt (r10 Driver.REG_BASE12_ADV));
            ("computations_per_sec", PyInt (r11 Driver.REG_COMP_PER_SEC));
            ("latency_us", PyFloat ((t_read - start_time) * 1000000));
            ("trade_signal",
             PyBool (negb (Z.land (done Driver.REG_STATUS) 0x10000 =? 0)%Z));
            ("spread", PyFloat (ask - bid));
            ("mid_price", PyFloat ((bid + ask) / 2))
          ]%string,
          Driver.World
            (Spec.transaction_writes bid ask last bid_size ask_size
               base_select risk_limit latency_budget_ns strategy_id ++ log)
            images later).
Proof.
  intros Hpend Hin Hbit.
  rewrite optimize_hardware_eq.
  rewrite (wait_completes _ _ t_done done (t_read :: later) _ _ polls);
    try assumption.
  - reflexivity.
  - rewrite length_app, length_map. simpl. lia.
Qed.

Lemma optimize_completes_witness :
  exists d : gmap string pyval,
    Driver.optimize Driver.hardware 1 2 1 10 10 0 100000 1000 0 100
      (Driver.World []
         ((fun _ => 0) :: (fun _ => 0x10001) :: repeat (fun _ => 7) 11)
         [0; 1 # 100; 2 # 100; 3 # 100]%Q)
    = Some (d, Driver.World (Spec.transaction_writes 1 2 1 10 10 0 100000 1000 0 ++ [])
                 [] [])
    /\ d !! "trade_signal"%string = Some (PyBool true)
    /\ d !! "quantity"%string = Some (PyInt 7).
Proof.
  eexists. split.
  - apply (optimize_completes 1 2 1 10 10 0 100000 1000 0 100 0 (2 # 100) (3 # 100) []
             [((1 # 100)%Q, fun _ => 0)] (fun _ => 0x10001)
             (fun _ => 7) (fun _ => 7) (fun _ => 7) (fun _ => 7) (fun _ => 7)
             (fun _ => 7) (fun _ => 7) (fun _ => 7) (fun _ => 7) (fun _ => 7)
             (fun _ => 7) [] []).
    + repeat constructor.
    + reflexivity.
    + discriminate.
  - split; reflexivity.
Defined.

(** ** Simulation mode *)

(** X6: in simulation mode no method touches the peripheral.  [optimize]
    takes its one clock reading and returns the software result, whatever
    base, risk limit, latency budget, strategy and timeout were asked for;
    [get_status] and [reset] leave the world as it is; a register write is
    dropped and a register read gives 0. *)
Theorem simulation_touches_nothing :
  (forall (bid ask last : Q) (bid_size ask_size : Z)
          (base_select risk_limit latency_budget_ns strategy_id timeout_ms : Z)
          (log : list (Z * Z)) (images : list (Z -> Z)) (t : Q) (ticks : list Q),
      Driver.optimize Driver.simulated bid ask last bid_size ask_size
        base_select risk_limit latency_budget_ns strategy_id timeout_ms
        (Driver.World log images (t :: ticks))
      = Some (Driver._simulate_optimization bid ask last bid_size ask_size,
              Driver.World log images ticks))
  /\ (forall w : Driver.world,
        exists d, Driver.get_status Driver.simulated w = Some (d, w)
                  /\ d !! "mode"%string = Some (PyStr "simulation")
                  /\ d !! "ready"%string = Some (PyBool true))
  /\ (forall w : Driver.world, Driver.reset Driver.simulated w = Some (tt, w))
  /\ (forall (offset value : Z) (w : Driver.world),
        Driver._write_reg Driver.simulated offset value w = Some (tt, w)
        /\ Driver._read_reg Driver.simulated offset w = Some (0, w)).
Proof.
  split; [reflexivity |]. split; [| split; [reflexivity | split; reflexivity]].
  intros w. eexists. split; [reflexivity | split; reflexivity].
Qed.

(** ** Base selection, further *)

(** X8: the base depends on the magnitude only:
    [optimal_base_for_value (-value) = optimal_base_for_value value]. *)
Theorem optimal_base_sign_symmetric (value : Q) :
  Calc.optimal_base_for_value (- value) = Calc.optimal_base_for_value value.
Proof.
  unfold Calc.optimal_base_for_value.
  assert (Calc.cents_of (- value) = Calc.cents_of value) as ->; [| reflexivity].
  unfold Calc.cents_of.
  assert (Qabs (- value) = Qabs value) as ->; [| reflexivity].
  destruct value as [n d]. unfold Qabs, Qopp. simpl. rewrite Z.abs_opp. reflexivity.
Qed.

Lemma land_pred_pow2 (k : Z) : 0 <= k -> Z.land (2 ^ k) (2 ^ k - 1) = 0.
Proof.
  intros Hk.
  replace (2 ^ k - 1) with (Z.ones k) by (rewrite Z.ones_equiv; lia).
  rewrite Z.land_ones by exact Hk. apply Z.mod_same.
  pose proof (Z.pow_pos_nonneg 2 k ltac:(lia) Hk). lia.
Qed.

Lemma land_pred_zero_pow2 (c : Z) :
  0 < c -> Z.land c (c - 1) = 0 -> c = 2 ^ Z.log2 c.
Proof.
  intros Hc Hland.
  destruct (Z.log2_spec c Hc) as [Hlo Hhi].
  destruct (Z.eq_dec c (2 ^ Z.log2 c)) as [Heq | Hne]; [exact Heq | exfalso].
  assert (Z.log2 (c - 1) = Z.log2 c) as Hlog.
  { apply Z.log2_unique; [apply Z.log2_nonneg | lia]. }
  assert (Z.testbit (Z.land c (c - 1)) (Z.log2 c) = true) as Hbit.
  { rewrite Z.land_spec, (Z.bit_log2 c Hc).
    rewrite <- Hlog. rewrite Z.bit_log2; [reflexivity |].
    pose proof (Z.pow_pos_nonneg 2 (Z.log2 c) ltac:(lia) (Z.log2_nonneg c)). lia. }
  rewrite Hland, Z.bits_0 in Hbit. discriminate.
Qed.

(** X9: Binary is chosen exactly for the powers of two:
    [optimal_base_for_value value] is [BINARY] if and only if
    [cents = int(|value| * 100)] is [2^k] for some [k >= 0], so 0.01, 0.02,
    0.04, 0.08, ... are Binary although 4 and 8 cents divide by 4. *)
Theorem optimal_base_binary_iff (value : Q) :
  Calc.optimal_base_for_value value = BINARY
  <-> exists k : Z, 0 <= k /\ Calc.cents_of value = 2 ^ k.
Proof.
  unfold Calc.optimal_base_for_value.
  pose proof (cents_of_nonneg value) as Hc.
  set (cents := Calc.cents_of value) in *.
  split.
  - destruct (cents =? 0) eqn:E0; [discriminate |]. apply Z.eqb_neq in E0.
    assert ((0 <? cents) = true) as -> by (apply Z.ltb_lt; lia).
    rewrite andb_true_l.
    destruct (Z.land cents (cents - 1) =? 0) eqn:Eland.
    + intros _. apply Z.eqb_eq in Eland. exists (Z.log2 cents).
      split; [apply Z.log2_nonneg | apply land_pred_zero_pow2; [lia | exact Eland]].
    + destruct ((cents mod 12 =? 0) || (cents mod 6 =? 0) || (cents mod 4 =? 0));
        [discriminate |].
      destruct (cents mod 10 =? 0); [discriminate |].
      destruct (2 <=? _); discriminate.
  - intros [k [Hk Heq]].
    pose proof (Z.pow_pos_nonneg 2 k ltac:(lia) Hk) as Hpos.
    assert ((cents =? 0) = false) as -> by (apply Z.eqb_neq; lia).
    assert ((0 <? cents) = true) as -> by (apply Z.ltb_lt; lia).
    rewrite Heq, (land_pred_pow2 k Hk). reflexivity.
Qed.

(** X10: the rules in closed form.  The base is Decimal for [cents = 0],
    Binary for a power of two, Dozenal when [cents] divides by 4 or by 6, and
    Decimal otherwise: the test of divisibility by 12, the test of
    divisibility by 10 and the closing score never change the answer. *)
Theorem optimal_base_closed_form (value : Q) :
  let cents := Calc.cents_of value in
  Calc.optimal_base_for_value value
  = if cents =? 0 then DECIMAL
    else if Z.land cents (cents - 1) =? 0 then BINARY
    else if (cents mod 4 =? 0) || (cents mod 6 =? 0) then DOZENAL
    else DECIMAL.
Proof.
  intros cents. unfold Calc.optimal_base_for_value. fold cents.
  pose proof (cents_of_nonneg value) as Hc. fold cents in Hc.
  destruct (cents =? 0) eqn:E0; [reflexivity |]. apply Z.eqb_neq in E0.
  assert ((0 <? cents) = true) as -> by (apply Z.ltb_lt; lia).
  rewrite andb_true_l.
  destruct (Z.land cents (cents - 1) =? 0); [reflexivity |].
  destruct (Z.eqb_spec (cents mod 4) 0) as [E4 | E4].
  { rewrite orb_true_r. reflexivity. }
  destruct (Z.eqb_spec (cents mod 6) 0) as [E6 | E6].
  { rewrite orb_true_r. reflexivity. }
  assert ((cents mod 12 =? 0) = false) as ->.
  { apply Z.eqb_neq. intros H12. apply E6.
    pose proof (Z.div_mod cents 12 ltac:(lia)).
    pose proof (Z.div_mod cents 6 ltac:(lia)).
    pose proof (Z.mod_pos_bound cents 6 ltac:(lia)). lia. }
  simpl orb.
  destruct (cents mod 10 =? 0); [reflexivity |].
  pose proof (optimal_base_score_dead cents E6 E4) as Hscore.
  rewrite (proj2 (Z.eqb_neq _ _) E4), (proj2 (Z.eqb_neq _ _) E6) in Hscore.
  destruct (2 <=? _) eqn:Es; [apply Z.leb_le in Es; lia | reflexivity].
Qed.

(** ** Dozenal conversion, further *)

(** Characters that [DOZENAL_DIGITS[d]] yields for a digit [0 <= d < 12]. *)
Local Abbreviation digits_only cs :=
  (Forall (fun c : ascii =>
             exists d : Z, 0 <= d < 12 /\ Py.str_index Calc.DOZENAL_DIGITS d = Some c) cs).

(** A digit is read back as its value, and is neither the point nor the
    sign. *)
Lemma digit_char_facts (d : Z) (c : ascii) :
  0 <= d < 12 -> Py.str_index Calc.DOZENAL_DIGITS d = Some c ->
  Calc.index (Calc.upper c) Calc.DOZENAL_DIGITS = Some d
  /\ c <> "."%char /\ c <> "-"%char.
Proof.
  intros Hd.
  assert (d = 0 \/ d = 1 \/ d = 2 \/ d = 3 \/ d = 4 \/ d = 5 \/ d = 6 \/ d = 7
          \/ d = 8 \/ d = 9 \/ d = 10 \/ d = 11) as Hcases by lia.
  repeat (destruct Hcases as [-> | Hcases];
          [intros [= <-]; repeat split; discriminate |]).
  subst d. intros [= <-]; repeat split; discriminate.
Qed.

Lemma digits_only_no_char (cs : list ascii) :
  digits_only cs ->
  Forall (fun c => c <> "."%char) cs /\ Forall (fun c => c <> "-"%char) cs.
Proof.
  induction 1 as [| c cs [d [Hd Hc]] _ [IH1 IH2]]; [split; constructor |].
  destruct (digit_char_facts d c Hd Hc) as [_ [H1 H2]].
  split; constructor; assumption.
Qed.

Lemma accumulate_digit (weight : nat -> Q) (i : nat) (d : Z) (c : ascii)
    (cs : list ascii) (acc : Q) :
  0 <= d < 12 -> Py.str_index Calc.DOZENAL_DIGITS d = Some c ->
  Calc.accumulate weight i (c :: cs) acc
  = Calc.accumulate weight (S i) cs (acc + inject_Z d * weight i)%Q.
Proof.
  intros Hd Hc. destruct (digit_char_facts d c Hd Hc) as [Hidx _].
  cbn [Calc.accumulate]. rewrite Hidx. reflexivity.
Qed.

Lemma pow12_succ (i : nat) : (Calc.pow12 (S i) == 12 * Calc.pow12 i)%Q.
Proof.
  unfold Calc.pow12. rewrite Nat2Z.inj_succ, Z.pow_succ_r by lia.
  rewrite inject_Z_mult. reflexivity.
Qed.

(** The digits of the integer loop, least significant first, weigh the
    value. *)
Lemma int_digits_spec (fuel : nat) :
  forall (value : Z) (result r : list ascii),
    0 <= value ->
    Calc.int_digits fuel value result = Some r ->
    exists cs : list ascii,
      r = result ++ cs /\ digits_only cs /\ (0 < value -> cs <> [])
      /\ forall (i : nat) (acc : Q),
           exists q, Calc.accumulate Calc.pow12 i cs acc = Some q
                     /\ (q == acc + inject_Z value * Calc.pow12 i)%Q.
Proof.
  induction fuel as [| fuel IH]; intros value result r Hv Hrun.
  - simpl in Hrun. destruct (0 <? value) eqn:Epos; [discriminate |].
    apply Z.ltb_ge in Epos. injection Hrun as <-.
    assert (value = 0) as -> by lia.
    exists []. rewrite app_nil_r. repeat split; [constructor | lia |].
    intros i acc. exists acc. split; [reflexivity |]. simpl. ring.
  - simpl in Hrun. destruct (0 <? value) eqn:Epos.
    + apply Z.ltb_lt in Epos.
      pose proof (Z.mod_pos_bound value 12 ltac:(lia)) as Hmod.
      destruct (Py.str_index Calc.DOZENAL_DIGITS (value mod 12)) as [c |] eqn:Ec;
        [| discriminate].
      apply IH in Hrun; [| apply Z.div_pos; lia].
      destruct Hrun as (cs & -> & Hcs & _ & Hacc).
      exists (c :: cs). rewrite <- app_assoc. split; [reflexivity |].
      split; [constructor; [exists (value mod 12); split; assumption | exact Hcs] |].
      split; [discriminate |].
      intros i acc. rewrite (accumulate_digit _ _ (value mod 12)) by assumption.
      destruct (Hacc (S i) (acc + inject_Z (value mod 12) * Calc.pow12 i)%Q)
        as (q & Hq & Heq).
      exists q. split; [exact Hq |]. rewrite Heq, pow12_succ.
      rewrite (Z.div_mod value 12) at 3 by lia.
      rewrite inject_Z_plus, inject_Z_mult. change (inject_Z 12) with 12%Q. ring.
    + apply Z.ltb_ge in Epos. injection Hrun as <-.
      assert (value = 0) as -> by lia.
      exists []. rewrite app_nil_r. repeat split; [constructor | lia |].
      intros i acc. exists acc. split; [reflexivity |]. simpl. ring.
Qed.

Lemma string_of_list_ascii_app (a b : list ascii) :
  string_of_list_ascii (a ++ b)
  = (string_of_list_ascii a ++ string_of_list_ascii b)%string.
Proof. induction a as [| c a IH]; simpl; [reflexivity | rewrite IH; reflexivity]. Qed.

Lemma split_no_sep (sep : ascii) (cs : list ascii) :
  Forall (fun c => c <> sep) cs ->
  Calc.split sep (string_of_list_ascii cs) = [string_of_list_ascii cs].
Proof.
  induction 1 as [| c cs Hc _ IH]; [reflexivity |].
  simpl. rewrite (proj2 (Ascii.eqb_neq c sep) Hc), IH. reflexivity.
Qed.

Lemma split_one_sep (sep : ascii) (a b : list ascii) :
  Forall (fun c => c <> sep) a -> Forall (fun c => c <> sep) b ->
  Calc.split sep (string_of_list_ascii (a ++ sep :: b))
  = [string_of_list_ascii a; string_of_list_ascii b].
Proof.
  intros Ha Hb. induction Ha as [| c a Hc _ IH].
  - simpl. rewrite Ascii.eqb_refl, (split_no_sep sep b Hb). reflexivity.
  - simpl. rewrite (proj2 (Ascii.eqb_neq c sep) Hc), IH. reflexivity.
Qed.

Lemma prefix_minus_digit (c : ascii) (s : string) :
  c <> "-"%char -> String.prefix "-" (String c s) = false.
Proof.
  intros Hc. cbn [String.prefix]. destruct (ascii_dec "-" c) as [Heq | _]; [| reflexivity].
  exfalso. apply Hc. symmetry. exact Heq.
Qed.

Lemma substring_all (s : string) : String.substring 0 (String.length s) s = s.
Proof. induction s as [| c s IH]; simpl; [reflexivity | rewrite IH; reflexivity]. Qed.

(** Parsing a string of digits, then a point, then digits. *)
Lemma from_dozenal_unsigned (cs fs : list ascii) :
  cs <> [] -> digits_only cs -> digits_only fs ->
  Calc.from_dozenal (string_of_list_ascii (rev cs))
  = Calc.accumulate Calc.pow12 0 cs 0
  /\ Calc.from_dozenal (string_of_list_ascii (rev cs) ++ "." ++ string_of_list_ascii fs)
     = match Calc.accumulate Calc.pow12 0 cs 0 with
       | Some result => Calc.accumulate Calc.pow12_neg 0 fs result
       | None => None
       end.
Proof.
  intros Hne Hcs Hfs.
  assert (digits_only (rev cs)) as Hrev by (apply Forall_rev; exact Hcs).
  destruct (digits_only_no_char _ Hrev) as [Hdot Hminus].
  destruct (digits_only_no_char _ Hfs) as [Hfdot _].
  destruct (rev cs) as [| c0 tl] eqn:Erev.
  { exfalso. apply Hne. apply (f_equal (@rev ascii)) in Erev.
    rewrite rev_involutive in Erev. exact Erev. }
  assert (c0 <> "-"%char) as Hc0 by (inversion Hminus; assumption).
  assert (rev (c0 :: tl) = cs) as Hback by (rewrite <- Erev; apply rev_involutive).
  split.
  - unfold Calc.from_dozenal.
    change (string_of_list_ascii (c0 :: tl)) with (String c0 (string_of_list_ascii tl)).
    rewrite (prefix_minus_digit c0 _ Hc0).
    change (String c0 (string_of_list_ascii tl)) with (string_of_list_ascii (c0 :: tl)).
    rewrite (split_no_sep "." _ Hdot). cbn [nth length Nat.ltb Nat.leb].
    rewrite list_ascii_of_string_of_list_ascii, Hback.
    destruct (Calc.accumulate Calc.pow12 0 cs 0); reflexivity.
  - unfold Calc.from_dozenal.
    change ("." ++ string_of_list_ascii fs)%string
      with (string_of_list_ascii ("."%char :: fs)).
    rewrite <- string_of_list_ascii_app.
    change (string_of_list_ascii ((c0 :: tl) ++ "."%char :: fs))
      with (String c0 (string_of_list_ascii (tl ++ "."%char :: fs))).
    rewrite (prefix_minus_digit c0 _ Hc0).
    change (String c0 (string_of_list_ascii (tl ++ "."%char :: fs)))
      with (string_of_list_ascii ((c0 :: tl) ++ "."%char :: fs)).
    rewrite (split_one_sep "." _ _ Hdot Hfdot). cbn [nth length Nat.ltb Nat.leb].
    rewrite !list_ascii_of_string_of_list_ascii, Hback.
    destruct (Calc.accumulate Calc.pow12 0 cs 0) as [result |]; [| reflexivity].
    destruct (Calc.accumulate Calc.pow12_neg 0 fs result); reflexivity.
Qed.

(** A leading sign negates what the rest of the string denotes. *)
Lemma from_dozenal_signed (s : string) :
  String.prefix "-" s = false ->
  Calc.from_dozenal (String "-" s)
  = match Calc.from_dozenal s with
    | Some result => Some (- result)%Q
    | None => None
    end.
Proof.
  intros Hs. unfold Calc.from_dozenal. rewrite Hs.
  assert (String.prefix "-" (String "-" s) = true) as ->.
  { cbn [String.prefix]. destruct (ascii_dec "-" "-") as [_ | Hne]; [| contradiction].
    destruct s; reflexivity. }
  assert (String.substring 1 (String.length (String "-" s) - 1) (String "-" s) = s) as ->.
  { simpl. rewrite Nat.sub_0_r. apply substring_all. }
  destruct (Calc.accumulate Calc.pow12 0 _ 0) as [result |]; [| reflexivity].
  destruct (Calc.accumulate Calc.pow12_neg 0 _ result); reflexivity.
Qed.

(** The string of a positive integer: its digits, most significant first. *)
Lemma int_to_dozenal_pos (value : Z) :
  0 < value ->
  exists cs : list ascii,
    cs <> [] /\ digits_only cs
    /\ Calc._int_to_dozenal value = Some (string_of_list_ascii (rev cs))
    /\ Calc._int_to_dozenal (- value) = Some (String "-" (string_of_list_ascii (rev cs)))
    /\ forall acc : Q,
         exists q, Calc.accumulate Calc.pow12 0 cs acc = Some q
                   /\ (q == acc + inject_Z value)%Q.
Proof.
  intros Hpos.
  destruct (int_digits_total (S (Z.to_nat (Z.log2 value))) value []) as [r Hr].
  { rewrite Nat2Z.inj_succ, Z2Nat.id by apply Z.log2_nonneg.
    apply Z.log2_spec. exact Hpos. }
  destruct (int_digits_spec _ value [] r (Z.lt_le_incl _ _ Hpos) Hr) as (cs & Hcs & Hdig & Hne & Hacc).
  simpl in Hcs. subst r.
  exists cs. split; [apply Hne; exact Hpos |]. split; [exact Hdig |].
  split; [| split].
  - unfold Calc._int_to_dozenal.
    assert ((value =? 0) = false) as -> by (apply Z.eqb_neq; lia).
    assert ((value <? 0) = false) as -> by (apply Z.ltb_ge; lia).
    rewrite Z.abs_eq by lia. rewrite Hr. reflexivity.
  - unfold Calc._int_to_dozenal.
    assert ((- value =? 0) = false) as -> by (apply Z.eqb_neq; lia).
    assert ((- value <? 0) = true) as -> by (apply Z.ltb_lt; lia).
    rewrite Z.abs_opp, Z.abs_eq by lia. rewrite Hr.
    rewrite rev_app_distr. reflexivity.
  - intros acc. destruct (Hacc 0%nat acc) as (q & Hq & Heq).
    exists q. split; [exact Hq |]. rewrite Heq. change (Calc.pow12 0) with 1%Q. ring.
Qed.

Lemma to_dozenal_integer (n : Z) :
  Calc.to_dozenal (inject_Z n) = Calc._int_to_dozenal n.
Proof.
  unfold Calc.to_dozenal, Py.eqb.
  destruct (Z.eq_dec n 0) as [-> | Hn]; [reflexivity |].
  assert (Qeq_bool (inject_Z n) 0 = false) as ->.
  { destruct (Qeq_bool (inject_Z n) 0) eqn:E; [| reflexivity].
    apply Qeq_bool_iff in E. exfalso. apply Hn. unfold Qeq in E. simpl in E. lia. }
  rewrite int_inject_Z.
  destruct (Calc._int_to_dozenal n) as [s |]; [| reflexivity].
  unfold Calc._frac_to_dozenal, Py.eqb.
  assert (Qeq_bool (inject_Z n - inject_Z n) 0 = true) as ->.
  { apply Qeq_bool_iff. ring. }
  reflexivity.
Qed.

(** X11: integers that a float holds and adds up exactly round-trip exactly,
    negative ones included: for every integer [n] with [|n| < 2^53],
    [to_dozenal(n)] is the string [_int_to_dozenal] gives, and [from_dozenal]
    reads it back as [n].  (Every partial sum of [from_dozenal] is then an
    integer below [2^53], so its float additions are exact.) *)
Theorem dozenal_integer_roundtrip (n : Z) :
  Z.abs n < 2 ^ 53 ->
  exists (s : string) (back : Q),
    Calc.to_dozenal (inject_Z n) = Some s
    /\ Calc._int_to_dozenal n = Some s
    /\ Calc.from_dozenal s = Some back
    /\ (back == inject_Z n)%Q.
Proof.
  intros _. rewrite to_dozenal_integer.
  destruct (Z.lt_trichotomy n 0) as [Hneg | [-> | Hpos]].
  - destruct (int_to_dozenal_pos (- n) ltac:(lia)) as (cs & Hne & Hcs & _ & Hs & Hacc).
    rewrite Z.opp_involutive in Hs.
    destruct (from_dozenal_unsigned cs [] Hne Hcs ltac:(constructor)) as [Hparse _].
    destruct (Hacc 0%Q) as (q & Hq & Heq).
    assert (String.prefix "-" (string_of_list_ascii (rev cs)) = false) as Hpre.
    { assert (digits_only (rev cs)) as Hrev by (apply Forall_rev; exact Hcs).
      destruct (digits_only_no_char _ Hrev) as [_ Hminus].
      destruct (rev cs) as [| c0 tl] eqn:Erev.
      - exfalso. apply Hne. apply (f_equal (@rev ascii)) in Erev.
        rewrite rev_involutive in Erev. exact Erev.
      - apply prefix_minus_digit. inversion Hminus; assumption. }
    exists (String "-" (string_of_list_ascii (rev cs))), (- q)%Q.
    split; [exact Hs |]. split; [exact Hs |].
    split.
    + rewrite (from_dozenal_signed _ Hpre), Hparse, Hq. reflexivity.
    + rewrite Heq, inject_Z_opp. ring.
  - exists "0"%string. eexists. repeat split; reflexivity.
  - destruct (int_to_dozenal_pos n Hpos) as (cs & Hne & Hcs & Hs & _ & Hacc).
    destruct (from_dozenal_unsigned cs [] Hne Hcs ltac:(constructor)) as [Hparse _].
    destruct (Hacc 0%Q) as (q & Hq & Heq).
    exists (string_of_list_ascii (rev cs)), q.
    split; [exact Hs |]. split; [exact Hs |].
    split; [rewrite Hparse; exact Hq | rewrite Heq; ring].
Qed.

Lemma dozenal_integer_roundtrip_witness :
  Z.abs (-1727) < 2 ^ 53 /\
  exists (s : string) (back : Q),
    Calc.to_dozenal (inject_Z (-1727)) = Some s
    /\ Calc.from_dozenal s = Some back
    /\ (back == inject_Z (-1727))%Q.
Proof.
  split; [reflexivity |].
  destruct (dozenal_integer_roundtrip (-1727)) as (s & back & H1 & _ & H3 & H4);
    [reflexivity |].
  exists s, back. repeat split; assumption.
Defined.

(** [split] at the first separator. *)
Lemma split_first_sep (sep : ascii) (a b : list ascii) :
  Forall (fun c => c <> sep) a ->
  Calc.split sep (string_of_list_ascii (a ++ sep :: b))
  = string_of_list_ascii a :: Calc.split sep (string_of_list_ascii b).
Proof.
  induction 1 as [| c a Hc _ IH].
  - simpl. rewrite Ascii.eqb_refl. reflexivity.
  - simpl. rewrite (proj2 (Ascii.eqb_neq c sep) Hc), IH. reflexivity.
Qed.

Lemma accumulate_invalid (weight : nat -> Q) (c : ascii) (cs : list ascii) :
  In c cs -> Calc.index (Calc.upper c) Calc.DOZENAL_DIGITS = None ->
  forall (i : nat) (acc : Q), Calc.accumulate weight i cs acc = None.
Proof.
  intros Hin Hbad. induction cs as [| c' cs IH]; [contradiction |].
  intros i acc. cbn [Calc.accumulate].
  destruct Hin as [-> | Hin]; [rewrite Hbad; reflexivity |].
  destruct (Calc.index (Calc.upper c') Calc.DOZENAL_DIGITS); [apply IH; exact Hin | reflexivity].
Qed.

(** What [from_dozenal] does with a string that has no leading sign: the
    first two point-separated parts are accumulated, the rest is dropped. *)
Lemma from_dozenal_parts (s : string) :
  String.prefix "-" s = false ->
  Calc.from_dozenal s
  = let parts := Calc.split "." s in
    match Calc.accumulate Calc.pow12 0
            (rev (list_ascii_of_string (nth 0 parts ""%string))) 0 with
    | Some result =>
        Calc.accumulate Calc.pow12_neg 0
          (list_ascii_of_string
             (if (1 <? length parts)%nat then nth 1 parts ""%string else ""%string))
          result
    | None => None
    end.
Proof.
  intros Hs. unfold Calc.from_dozenal. rewrite Hs. cbv zeta.
  destruct (Calc.accumulate Calc.pow12 0 _ 0) as [result |]; [| reflexivity].
  destruct (Calc.accumulate Calc.pow12_neg 0 _ result); reflexivity.
Qed.

(** X13: a character outside the alphabet makes [from_dozenal] fail.  For an
    unsigned string with an integer part [ip] and a fractional part [fp],
    neither containing a point: if some character of either, upper-cased, is
    not one of [0123456789AB], nothing is returned (the [ValueError] of
    [str.index]), with or without the fractional part. *)
Theorem from_dozenal_rejects (ip fp : list ascii) (c : ascii) :
  Forall (fun x => x <> "."%char) ip -> Forall (fun x => x <> "."%char) fp ->
  String.prefix "-" (string_of_list_ascii (ip ++ "."%char :: fp)) = false ->
  In c (ip ++ fp) ->
  Calc.index (Calc.upper c) Calc.DOZENAL_DIGITS = None ->
  Calc.from_dozenal (string_of_list_ascii (ip ++ "."%char :: fp)) = None
  /\ (In c ip -> Calc.from_dozenal (string_of_list_ascii ip) = None).
Proof.
  intros Hip Hfp Hpre Hin Hbad. split.
  - rewrite (from_dozenal_parts _ Hpre).
    rewrite (split_one_sep "." ip fp Hip Hfp). cbv zeta. cbn [nth length Nat.ltb Nat.leb].
    rewrite !list_ascii_of_string_of_list_ascii.
    apply in_app_or in Hin. destruct Hin as [Hin | Hin].
    + rewrite (accumulate_invalid Calc.pow12 c (rev ip)); [reflexivity | | exact Hbad].
      apply in_rev. rewrite rev_involutive. exact Hin.
    + destruct (Calc.accumulate Calc.pow12 0 (rev ip) 0); [| reflexivity].
      apply (accumulate_invalid Calc.pow12_neg c fp Hin Hbad).
  - intros Hin'.
    assert (String.prefix "-" (string_of_list_ascii ip) = false) as Hpre'.
    { destruct ip as [| c0 ip']; [reflexivity |].
      change (string_of_list_ascii ((c0 :: ip') ++ "."%char :: fp))
        with (String c0 (string_of_list_ascii (ip' ++ "."%char :: fp))) in Hpre.
      cbn [String.prefix string_of_list_ascii] in Hpre |- *.
      destruct (ascii_dec "-" c0); [| reflexivity].
      destruct (string_of_list_ascii (ip' ++ "."%char :: fp)); discriminate. }
    rewrite (from_dozenal_parts _ Hpre').
    rewrite (split_no_sep "." ip Hip). cbv zeta. cbn [nth length Nat.ltb Nat.leb].
    rewrite list_ascii_of_string_of_list_ascii.
    rewrite (accumulate_invalid Calc.pow12 c (rev ip)); [reflexivity | | exact Hbad].
    apply in_rev. rewrite rev_involutive. exact Hin'.
Qed.

Lemma from_dozenal_rejects_witness :
  Calc.from_dozenal "1C.5" = None /\ Calc.from_dozenal "1C" = None.
Proof.
  destruct (from_dozenal_rejects ["1"; "C"]%char ["5"%char] "C"%char) as [H1 H2].
  - repeat constructor; discriminate.
  - repeat constructor; discriminate.
  - reflexivity.
  - simpl. auto.
  - reflexivity.
  - split; [exact H1 | apply H2; simpl; auto].
Defined.

(** X14: everything after a second point is dropped, valid or not: for an
    unsigned string ["ip.fp.rest"] with no point in [ip] and [fp],
    [from_dozenal] returns what it returns for ["ip.fp"]. *)
Theorem from_dozenal_ignores_third_part (ip fp rest : list ascii) :
  Forall (fun x => x <> "."%char) ip -> Forall (fun x => x <> "."%char) fp ->
  String.prefix "-" (string_of_list_ascii (ip ++ "."%char :: fp)) = false ->
  Calc.from_dozenal (string_of_list_ascii (ip ++ "."%char :: fp ++ "."%char :: rest))
  = Calc.from_dozenal (string_of_list_ascii (ip ++ "."%char :: fp)).
Proof.
  intros Hip Hfp Hpre.
  assert (String.prefix "-"
            (string_of_list_ascii (ip ++ "."%char :: fp ++ "."%char :: rest)) = false)
    as Hpre'.
  { destruct ip as [| c0 ip']; [reflexivity |].
    change (string_of_list_ascii ((c0 :: ip') ++ "."%char :: fp))
      with (String c0 (string_of_list_ascii (ip' ++ "."%char :: fp))) in Hpre.
    change (string_of_list_ascii ((c0 :: ip') ++ "."%char :: fp ++ "."%char :: rest))
      with (String c0 (string_of_list_ascii (ip' ++ "."%char :: fp ++ "."%char :: rest))).
    cbn [String.prefix] in Hpre |- *.
    destruct (ascii_dec "-" c0); [| reflexivity].
    destruct (string_of_list_ascii (ip' ++ "."%char :: fp)); discriminate. }
  rewrite (from_dozenal_parts _ Hpre), (from_dozenal_parts _ Hpre').
  rewrite (split_one_sep "." ip fp Hip Hfp).
  rewrite (split_first_sep "." ip _ Hip), (split_first_sep "." fp _ Hfp).
  reflexivity.
Qed.

Lemma from_dozenal_ignores_third_part_witness :
  Calc.from_dozenal "1A.6.ZZ" = Calc.from_dozenal "1A.6".
Proof.
  apply (from_dozenal_ignores_third_part ["1"; "A"]%char ["6"%char] ["Z"; "Z"]%char).
  - repeat constructor; discriminate.
  - repeat constructor; discriminate.
  - reflexivity.
Defined.

(** ** Pricing engine, further *)


(** One call: it returns, and adds one to one of the three counters. *)
Lemma optimize_price_levels_step
    (self : HFT.HFTOptimizer) (bid ask last : Q) (strategy : string) :
  exists (result : gmap string pyval) (self' : HFT.HFTOptimizer),
    HFT.optimize_price_levels self bid ask last strategy = Some (result, self')
    /\ HFT.base12_operations (HFT.performance_stats self')
       + HFT.base10_operations (HFT.performance_stats self')
       + HFT.base2_operations (HFT.performance_stats self')
       = HFT.base12_operations (HFT.performance_stats self)
         + HFT.base10_operations (HFT.performance_stats self)
         + HFT.base2_operations (HFT.performance_stats self) + 1
    /\ HFT.total_savings_cycles (HFT.performance_stats self')
       = HFT.total_savings_cycles (HFT.performance_stats self).
Proof.
  unfold HFT.optimize_price_levels.
  destruct (Calc.optimal_base_for_value ((bid + ask) / 2)).
  - do 2 eexists. split; [reflexivity |]. simpl. split; lia.
  - do 2 eexists. split; [reflexivity |]. simpl. split; lia.
  - unfold HFT._optimize_dozenal.
    destruct (to_dozenal_total ((bid + ask) / 2)) as [smid ->].
    destruct (to_dozenal_total (ask - bid)) as [sspread ->].
    destruct (String.eqb strategy "market_making");
      [| destruct (String.eqb strategy "mean_reversion")];
      do 2 eexists; (split; [reflexivity |]); simpl; split; lia.
Qed.

(** X16: the counters record one operation per call.  Any sequence of calls
    on a fresh object runs to its end, returns one result per call and leaves
    counters that add up to the number of calls; [total_savings_cycles] is
    still 0, because no method ever adds to it; and [get_performance_stats]
    then reports that number as [total_operations]. *)
Theorem run_counts_calls (accelerated : bool) (calls : list (Q * Q * Q * string)) :
  exists (results : list (gmap string pyval)) (self' : HFT.HFTOptimizer)
         (d : gmap string pyval),
    HFT.run calls (HFT.init accelerated) = Some (results, self')
    /\ length results = length calls
    /\ HFT.base12_operations (HFT.performance_stats self')
       + HFT.base10_operations (HFT.performance_stats self')
       + HFT.base2_operations (HFT.performance_stats self')
       = Z.of_nat (length calls)
    /\ HFT.total_savings_cycles (HFT.performance_stats self') = 0
    /\ HFT.get_performance_stats self' = Some d
    /\ d !! "total_savings_cycles"%string = Some (PyInt 0)
    /\ (calls <> [] ->
        d !! "total_operations"%string = Some (PyInt (Z.of_nat (length calls)))).
Proof.
  assert (forall (calls : list (Q * Q * Q * string)) (self : HFT.HFTOptimizer),
             exists results self',
               HFT.run calls self = Some (results, self')
               /\ length results = length calls
               /\ HFT.base12_operations (HFT.performance_stats self')
                  + HFT.base10_operations (HFT.performance_stats self')
                  + HFT.base2_operations (HFT.performance_stats self')
                  = HFT.base12_operations (HFT.performance_stats self)
                    + HFT.base10_operations (HFT.performance_stats self)
                    + HFT.base2_operations (HFT.performance_stats self)
                    + Z.of_nat (length calls)
               /\ HFT.total_savings_cycles (HFT.performance_stats self')
                  = HFT.total_savings_cycles (HFT.performance_stats self)) as Hrun.
  { clear calls. induction calls as [| [[[bid ask] last] strategy] calls IH]; intros self.
    - exists [], self. simpl. repeat split; lia.
    - destruct (optimize_price_levels_step self bid ask last strategy)
        as (result & self1 & Hcall & Hsum1 & Hsav1).
      destruct (IH self1) as (results & self2 & Hrest & Hlen & Hsum & Hsav).
      exists (result :: results), self2.
      cbn [HFT.run]. rewrite Hcall, Hrest.
      split; [reflexivity |]. split; [simpl; congruence |].
      rewrite Hsum, Hsav, Hsum1, Hsav1.
      change (length ((bid, ask, last, strategy) :: calls)) with (S (length calls)).
      split; lia. }
  destruct (Hrun calls (HFT.init accelerated)) as (results & self' & Hr & Hlen & Hsum & Hsav).
  simpl in Hsum, Hsav.
  exists results, self'.
  unfold HFT.get_performance_stats, HFT.truediv.
  destruct (HFT.performance_stats self') as [b12 b10 b2 ts] eqn:Est.
  cbn [HFT.base12_operations HFT.base10_operations HFT.base2_operations
       HFT.total_savings_cycles] in *.
  subst ts. rewrite !Z.add_0_l in Hsum. rewrite Hsum.
  destruct (Z.of_nat (length calls) =? 0) eqn:E0.
  - eexists.
    split; [exact Hr |]. split; [exact Hlen |]. split; [reflexivity |].
    split; [reflexivity |]. split; [reflexivity |]. split; [reflexivity |].
    intros Hne. apply Z.eqb_eq in E0. destruct calls; [contradiction | discriminate].
  - eexists.
    split; [exact Hr |]. split; [exact Hlen |]. split; [reflexivity |].
    split; [reflexivity |]. split; [reflexivity |]. split; [reflexivity |].
    intros _. reflexivity.
Qed.

(** Inverses of numerals, written out as fractions for [lra]. *)
Ltac const_inverses :=
  unfold Qdiv;
  repeat match goal with
         | |- context [Qinv (Qmake ?n ?d)] =>
             let v := eval vm_compute in (Qinv (Qmake n d)) in
             change (Qinv (Qmake n d)) with v
         end.

(** X17: where the price levels lie.  For a spread that is not negative,
    every (base, strategy) pair puts the entry at or above the mid price, the
    exit at or above the entry, and the exit at most one spread above the
    mid price. *)
Theorem optimize_price_levels_ordered
    (self : HFT.HFTOptimizer) (bid ask last : Q) (strategy : string) :
  (bid <= ask)%Q ->
  exists (result : gmap string pyval) (self' : HFT.HFTOptimizer)
         (entry_price exit_price : Q),
    HFT.optimize_price_levels self bid ask last strategy = Some (result, self')
    /\ result !! "entry_price"%string = Some (PyFloat entry_price)
    /\ result !! "exit_price"%string = Some (PyFloat exit_price)
    /\ ((bid + ask) / 2 <= entry_price)%Q
    /\ (entry_price <= exit_price)%Q
    /\ (exit_price <= (bid + ask) / 2 + (ask - bid))%Q.
Proof.
  intros Hspread. unfold HFT.optimize_price_levels.
  destruct (Calc.optimal_base_for_value ((bid + ask) / 2)).
  - unfold HFT._optimize_binary.
    destruct (String.eqb strategy "market_making");
      [| destruct (String.eqb strategy "momentum")];
      do 4 eexists; (split; [reflexivity |]);
      do 2 (split; [reflexivity |]); repeat split; const_inverses; lra.
  - unfold HFT._optimize_decimal.
    destruct (String.eqb strategy "market_making");
      [| destruct (String.eqb strategy "arbitrage")];
      do 4 eexists; (split; [reflexivity |]);
      do 2 (split; [reflexivity |]); repeat split; const_inverses; lra.
  - unfold HFT._optimize_dozenal.
    destruct (to_dozenal_total ((bid + ask) / 2)) as [smid ->].
    destruct (to_dozenal_total (ask - bid)) as [sspread ->].
    destruct (String.eqb strategy "market_making");
      [| destruct (String.eqb strategy "mean_reversion")];
      do 4 eexists; (split; [reflexivity |]);
      do 2 (split; [reflexivity |]); repeat split; const_inverses; lra.
Qed.

Lemma optimize_price_levels_ordered_witness :
  (10025 # 100 <= 10028 # 100)%Q /\
  exists (result : gmap string pyval) (self' : HFT.HFTOptimizer)
         (entry_price exit_price : Q),
    HFT.optimize_price_levels (HFT.init false) (10025 # 100) (10028 # 100)
      (10026 # 100) "market_making" = Some (result, self')
    /\ result !! "entry_price"%string = Some (PyFloat entry_price)
    /\ result !! "exit_price"%string = Some (PyFloat exit_price)
    /\ (entry_price <= exit_price)%Q.
Proof.
  split; [discriminate |].
  destruct (optimize_price_levels_ordered (HFT.init false) (10025 # 100) (10028 # 100)
              (10026 # 100) "market_making")
    as (result & self' & e & x & H1 & H2 & H3 & _ & H4 & _); [discriminate |].
  exists result, self', e, x. repeat split; assumption.
Defined.

(** ** Risk sizing, further *)

(** X19: the band of the slippage estimate.  With a power that is not
    negative on a base that is not negative, as [**] is, and with quantity,
    depth and spread not negative, the estimate for a non-zero depth lies
    between a quarter of the spread and the spread. *)
Theorem estimate_slippage_band (float_pow : Q -> Q -> Q)
    (quantity : Z) (spread : Q) (market_depth : Z) :
  (forall x y : Q, (0 <= x)%Q -> (0 <= float_pow x y)%Q) ->
  0 <= quantity -> 0 < market_depth -> (0 <= spread)%Q ->
  exists slippage : Q,
    HFT.estimate_slippage float_pow quantity spread market_depth = Some slippage
    /\ (spread * (1 # 4) <= slippage)%Q /\ (slippage <= spread)%Q.
Proof.
  intros Hpow Hq Hd Hs. unfold HFT.estimate_slippage.
  assert ((market_depth =? 0) = false) as -> by (apply Z.eqb_neq; lia).
  assert (0 <= inject_Z quantity / inject_Z market_depth)%Q as Hratio.
  { apply Qle_shift_div_l.
    - change 0%Q with (inject_Z 0). rewrite <- Zlt_Qlt. exact Hd.
    - rewrite Qmult_0_l. change 0%Q with (inject_Z 0). rewrite <- Zle_Qle. exact Hq. }
  rewrite (ltb_false _ _ Hratio).
  eexists. split; [reflexivity |]. split; [| apply min_le_r].
  specialize (Hpow _ (3 # 2)%Q Hratio).
  revert Hpow. generalize (float_pow (inject_Z quantity / inject_Z market_depth)%Q (3 # 2)%Q).
  intros p Hp. unfold Py.min.
  destruct (Qlt_le_dec spread (spread * (1 # 4) * (1 + p))) as [_ | _]; [lra | nra].
Qed.

Lemma estimate_slippage_band_witness :
  exists slippage : Q,
    HFT.estimate_slippage (fun x _ => x * x)%Q 50 1 100 = Some slippage
    /\ ((1 # 4) <= slippage)%Q /\ (slippage <= 1)%Q.
Proof.
  destruct (estimate_slippage_band (fun x _ => x * x)%Q 50 1 100)
    as (s & Hs & Hlo & Hhi); [intros x y Hx; nra | lia | lia | discriminate |].
  exists s. split; [exact Hs |]. split; [lra | exact Hhi].
Defined.

(** X20: a quantity and a depth of opposite signs make [estimate_slippage]
    fail: the ratio is negative, its power 1.5 is a complex number, and [min]
    cannot order it against the spread. *)
Theorem estimate_slippage_negative_ratio (float_pow : Q -> Q -> Q)
    (quantity : Z) (spread : Q) (market_depth : Z) :
  (0 < quantity /\ market_depth < 0) \/ (quantity < 0 /\ 0 < market_depth) ->
  HFT.estimate_slippage float_pow quantity spread market_depth = None.
Proof.
  intros Hsigns. unfold HFT.estimate_slippage.
  assert ((market_depth =? 0) = false) as -> by (apply Z.eqb_neq; lia).
  rewrite ltb_true; [reflexivity |].
  destruct market_depth as [| d | d], quantity as [| q | q]; try lia;
    unfold Qlt, Qdiv, Qmult, Qinv; simpl; lia.
Qed.

Lemma estimate_slippage_negative_ratio_witness :
  HFT.estimate_slippage (fun x _ => x * x)%Q 1 1 (-1) = None.
Proof. apply estimate_slippage_negative_ratio. left. lia. Defined.

(** ** Status flags *)

Lemma land_pow2_testbit (s k : Z) :
  0 <= k -> negb (Z.land s (2 ^ k) =? 0) = Z.testbit s k.
Proof.
  intros Hk.
  assert (Z.land s (2 ^ k) = if Z.testbit s k then 2 ^ k else 0) as ->.
  { apply Z.bits_inj'. intros n Hn. rewrite Z.land_spec, Z.pow2_bits_eqb by exact Hk.
    destruct (Z.eqb_spec k n) as [<- | Hne].
    - rewrite andb_true_r. destruct (Z.testbit s k).
      + rewrite Z.pow2_bits_true by exact Hk. reflexivity.
      + rewrite Z.bits_0. reflexivity.
    - rewrite andb_false_r. destruct (Z.testbit s k).
      + rewrite Z.pow2_bits_false by exact Hne. reflexivity.
      + rewrite Z.bits_0. reflexivity. }
  destruct (Z.testbit s k); [| reflexivity].
  pose proof (Z.pow_pos_nonneg 2 k ltac:(lia) Hk) as Hpos.
  destruct (Z.eqb_spec (2 ^ k) 0); [lia | reflexivity].
Qed.

(** X21: [get_status] on the hardware reads the status register once, then
    the throughput register once, and writes nothing.  [ready] and
    [optimization_complete] are both bit 0 of the status word,
    [trade_signal_valid] is bit 16 and [optimizer_busy] is bit 17. *)
Theorem get_status_hardware (status_image rate_image : Z -> Z)
    (images : list (Z -> Z)) (log : list (Z * Z)) (ticks : list Q) :
  let status := status_image Driver.REG_STATUS in
  Driver.get_status Driver.hardware
    (Driver.World log (status_image :: rate_image :: images) ticks)
  = Some (list_to_map [
            ("mode", PyStr "fpga");
            ("ready", PyBool (Z.testbit status 0));
            ("optimization_complete", PyBool (Z.testbit status 0));
            ("trade_signal_valid", PyBool (Z.testbit status 16));
            ("optimizer_busy", PyBool (Z.testbit status 17));
            ("computations_per_sec", PyInt (rate_image Driver.REG_COMP_PER_SEC))
          ],
          Driver.World log images ticks).
Proof.
  intros status.
  rewrite <- (land_pow2_testbit status 0), <- (land_pow2_testbit status 16),
    <- (land_pow2_testbit status 17) by lia.
  reflexivity.
Qed.

Lemma run_counts_calls_witness :
  exists (results : list (gmap string pyval)) (self' : HFT.HFTOptimizer)
         (d : gmap string pyval),
    HFT.run [(1, 2, 1, "market_making"%string); (3, 4, 3, "momentum"%string)]%Q
      (HFT.init false) = Some (results, self')
    /\ HFT.get_performance_stats self' = Some d
    /\ d !! "total_operations"%string = Some (PyInt 2).
Proof.
  destruct (run_counts_calls false
              [(1, 2, 1, "market_making"%string); (3, 4, 3, "momentum"%string)]%Q)
    as (results & self' & d & Hr & _ & _ & _ & Hd & _ & Htotal).
  exists results, self', d. split; [exact Hr |]. split; [exact Hd |].
  apply Htotal. discriminate.
Defined.
